(** * git_tools.py: conflict-marker parser, classifier and validation gate

    A shallow embedding of [skill/git_tools.py].  A Python [str] is a
    [string] whose characters are the code points U+0000..U+00FF; the
    character classes below are Python's own on that range.  The file
    system, the version-control tool, the syntax checker and the regular
    expression engine are capabilities of the environment and are taken
    as section variables where the code calls them. *)

From Stdlib Require Import Ascii String.
From stdpp Require Import base decidable option list gmap strings pretty.

Local Open Scope nat_scope.

(** ** Python [str] primitives *)

Module Str.

Definition LF : ascii := "010"%char.
Definition CR : ascii := "013"%char.
Definition TAB : ascii := "009"%char.
Definition DQUOTE : ascii := "034"%char.

Definition chr (c : ascii) : string := String c "".

(** Line boundaries of [str.splitlines]: \n \v \f \r \x1c \x1d \x1e \x85
    (and \r\n, taken as one boundary). *)
Definition is_linebreak (c : ascii) : bool :=
  match nat_of_ascii c with
  | 10 | 11 | 12 | 13 | 28 | 29 | 30 | 133 => true
  | _ => false
  end.

(** [str.isspace] on one character; the set [str.strip()] removes. *)
Definition is_space (c : ascii) : bool :=
  match nat_of_ascii c with
  | 9 | 10 | 11 | 12 | 13 | 28 | 29 | 30 | 31 | 32 | 133 | 160 => true
  | _ => false
  end.

(** [str.isdigit] on one character: 0-9 and the superscripts ² ³ ¹. *)
Definition is_digit (c : ascii) : bool :=
  let n := nat_of_ascii c in
  ((48 <=? n) && (n <=? 57)) || (n =? 178) || (n =? 179) || (n =? 185).

(** The class [\w] of [re] on [str] patterns: alphanumeric or underscore. *)
Definition is_word (c : ascii) : bool :=
  let n := nat_of_ascii c in
  ((48 <=? n) && (n <=? 57)) || ((65 <=? n) && (n <=? 90)) || (n =? 95)
  || ((97 <=? n) && (n <=? 122))
  || (n =? 170) || (n =? 178) || (n =? 179) || (n =? 181) || (n =? 185)
  || (n =? 186) || ((188 <=? n) && (n <=? 190))
  || ((192 <=? n) && (n <=? 214)) || ((216 <=? n) && (n <=? 246))
  || ((248 <=? n) && (n <=? 255)).

(** [content.splitlines(keepends=True)]; [cur] is the line being read. *)
Fixpoint splitlines_from (cur : string) (s : string) : list string :=
  match s with
  | EmptyString => if String.eqb cur "" then [] else [cur]
  | String c s' =>
      if Ascii.eqb c CR then
        match s' with
        | String d s'' =>
            if Ascii.eqb d LF
            then (cur +:+ String CR (chr LF)) :: splitlines_from "" s''
            else (cur +:+ chr CR) :: splitlines_from "" s'
        | EmptyString => [cur +:+ chr CR]
        end
      else if is_linebreak c then (cur +:+ chr c) :: splitlines_from "" s'
      else splitlines_from (cur +:+ chr c) s'
  end.

Definition splitlines (content : string) : list string :=
  splitlines_from "" content.

(** [s.startswith(prefix)] *)
Definition startswith (s prefix : string) : bool := String.prefix prefix s.

(** [sub in s] *)
Fixpoint contains (sub s : string) : bool :=
  String.prefix sub s ||
  match s with
  | EmptyString => false
  | String _ s' => contains sub s'
  end.

(** [sep.join(parts)] *)
Definition join (sep : string) (parts : list string) : string :=
  String.concat sep parts.

Fixpoint lstrip (s : string) : string :=
  match s with
  | EmptyString => ""
  | String c s' => if is_space c then lstrip s' else s
  end.

Fixpoint rstrip (s : string) : string :=
  match s with
  | EmptyString => ""
  | String c s' =>
      let r := rstrip s' in
      if String.eqb r "" && is_space c then "" else String c r
  end.

(** [s.strip()] *)
Definition strip (s : string) : string := rstrip (lstrip s).

(** [s.replace(old, new)] for a one-character [old]. *)
Fixpoint replace (s : string) (old : ascii) (new : string) : string :=
  match s with
  | EmptyString => ""
  | String c s' =>
      if Ascii.eqb c old then new +:+ replace s' old new
      else String c (replace s' old new)
  end.

(** [s.isdigit()]: non-empty and every character a digit. *)
Fixpoint all_digits (s : string) : bool :=
  match s with
  | EmptyString => true
  | String c s' => is_digit c && all_digits s'
  end.

Definition isdigit (s : string) : bool :=
  negb (String.eqb s "") && all_digits s.

(** [re.findall(r'\w+', s)]: the maximal runs of word characters, left to
    right; [cur] is the run being read. *)
Fixpoint findall_word_from (cur : string) (s : string) : list string :=
  match s with
  | EmptyString => if String.eqb cur "" then [] else [cur]
  | String c s' =>
      if is_word c then findall_word_from (cur +:+ chr c) s'
      else if String.eqb cur "" then findall_word_from "" s'
      else cur :: findall_word_from "" s'
  end.

Definition findall_word (s : string) : list string := findall_word_from "" s.

(** [any(keyword in s for keyword in keywords)] *)
Definition any_in (keywords : list string) (s : string) : bool :=
  existsb (fun keyword => contains keyword s) keywords.

End Str.

Import Str.

(** ** Enumerations *)

Inductive ConflictType :=
  | IMPORT | WHITESPACE | RENAME | REFACTOR | LOGIC | FUNCTION_SIGNATURE
  | UNKNOWN.

Inductive Difficulty := EASY | MEDIUM | HARD | ESCALATE.

#[global] Instance ConflictType_eq_dec : EqDecision ConflictType.
Proof. solve_decision. Defined.

#[global] Instance Difficulty_eq_dec : EqDecision Difficulty.
Proof. solve_decision. Defined.

(** The [.value] of an enumeration member. *)
Definition ConflictType_value (t : ConflictType) : string :=
  match t with
  | IMPORT => "IMPORT"
  | WHITESPACE => "WHITESPACE"
  | RENAME => "RENAME"
  | REFACTOR => "REFACTOR"
  | LOGIC => "LOGIC"
  | FUNCTION_SIGNATURE => "FUNCTION_SIGNATURE"
  | UNKNOWN => "UNKNOWN"
  end.

Definition Difficulty_value (d : Difficulty) : string :=
  match d with
  | EASY => "EASY"
  | MEDIUM => "MEDIUM"
  | HARD => "HARD"
  | ESCALATE => "ESCALATE"
  end.

Definition order : list string := ["EASY"; "MEDIUM"; "HARD"; "ESCALATE"].

(** [xs.index(x)]; [None] stands for [ValueError]. *)
Fixpoint index (xs : list string) (x : string) : option nat :=
  match xs with
  | [] => None
  | y :: ys => if String.eqb y x then Some 0 else S <$> index ys x
  end.

(** [Difficulty.__lt__] between two members of the class. *)
Definition Difficulty_lt (self other : Difficulty) : bool :=
  match index order (Difficulty_value self),
        index order (Difficulty_value other) with
  | Some a, Some b => a <? b
  | _, _ => false
  end.

(** The builtin [max(a, b)]: [b] replaces [a] only when [b > a], which for
    this class is the reflected [a.__lt__(b)]. *)
Definition max (a b : Difficulty) : Difficulty :=
  if Difficulty_lt a b then b else a.

(** ** The marker parser *)

(** One dictionary appended to [conflicts]. *)
Record ConflictBlock := mkBlock {
  start_line : nat;
  end_line : nat;
  ours : string;
  theirs : string;
  ours_label : string;
  theirs_label : string
}.

(** What a call gives: a value, or an [IndexError] from [lines[k]] with
    [k] out of range.  [OutOfFuel] marks the bound the embedding puts on
    the outer loop; [parse_delimited] shows that neither is ever returned
    by the parser. *)
Inductive result (A : Type) :=
  | Ok (x : A)
  | IndexError
  | OutOfFuel.
Arguments Ok {A} x.
Arguments IndexError {A}.
Arguments OutOfFuel {A}.

(** Python truthiness of an index that may be [None]: [None] and [0] are
    both false. *)
Definition truthy (idx : option nat) : bool :=
  match idx with
  | Some (S _) => true
  | _ => false
  end.

(** An inner [while i < len(lines)] loop: [rest] is [lines[i:]], [acc] the
    lines appended so far.  Returns the marker index found (or [None]), the
    final value of [i], and the accumulated lines. *)
Fixpoint collect_until (token : string) (rest : list string) (i : nat)
    (acc : list string) : option nat * nat * list string :=
  match rest with
  | [] => (None, i, acc)
  | line :: rest' =>
      if startswith line token then (Some i, i, acc)
      else collect_until token rest' (S i) (acc ++ [line])
  end.

(** The outer [while i < len(lines)] loop.  Every iteration advances [i],
    so [length lines] iterations always suffice. *)
Fixpoint scan (fuel : nat) (lines : list string) (i : nat)
    (conflicts : list ConflictBlock) : result (list ConflictBlock) :=
  match lines !! i with
  | None => Ok conflicts
  | Some line =>
    match fuel with
    | 0 => OutOfFuel
    | S fuel' =>
      if startswith line "<<<<<<<" then
        let start := i in
        let '(separator_idx, i, ours_lines) :=
          collect_until "=======" (drop (S i) lines) (S i) [] in
        let '(end_idx, i, theirs_lines) :=
          if truthy separator_idx
          then collect_until ">>>>>>>" (drop (S i) lines) (S i) []
          else (None, i, []) in
        let found :=
          if truthy separator_idx && truthy end_idx then end_idx else None in
        match found with
        | Some end_idx =>
            match lines !! start, lines !! end_idx with
            | Some first, Some last =>
                scan fuel' lines (S i)
                  (conflicts ++
                   [ {| start_line := start + 1;
                        end_line := end_idx + 1;
                        ours := join "" ours_lines;
                        theirs := join "" theirs_lines;
                        ours_label := strip first;
                        theirs_label := strip last |} ])
            | _, _ => IndexError
            end
        | None => scan fuel' lines (S i) conflicts
        end
      else scan fuel' lines (S i) conflicts
    end
  end.

Definition parse_conflict_markers (content : string)
    : result (list ConflictBlock) :=
  let lines := splitlines content in
  scan (length lines) lines 0 [].

(** ** The conflict classifier *)

Definition import_keywords : list string :=
  ["import "; "from "; "#include"; "require("].

Definition definition_keywords : list string :=
  ["def "; "function "; "func "; "class "].

(** [s.replace(' ', '').replace('\t', '').replace('\n', '')] *)
Definition remove_blanks (s : string) : string :=
  replace (replace (replace s " "%char "") TAB "") LF "".

(** [a.symmetric_difference(b)] on sets of words. *)
Definition symmetric_difference (a b : gset string) : gset string :=
  (a ∖ b) ∪ (b ∖ a).

(** Rule 4, the rename detector, on the two stripped sides. *)
Definition rename_detector (ours theirs : string) : bool :=
  let ours_words : gset string := list_to_set (findall_word ours) in
  let theirs_words : gset string := list_to_set (findall_word theirs) in
  let diff := symmetric_difference ours_words theirs_words in
  let is_numeric_change := existsb isdigit (elements diff) in
  negb is_numeric_change && (size diff <? 3) && (0 <? size ours_words).

(** The body of [for marker in markers], up to its [append]: the type
    given to the block and the new value of [max_difficulty]. *)
Definition classify_block (marker : ConflictBlock)
    (max_difficulty : Difficulty) : ConflictType * Difficulty :=
  let ours := strip (ours marker) in
  let theirs := strip (theirs marker) in
  (* 1. IMPORT *)
  if any_in import_keywords (ours +:+ theirs) then
    (IMPORT, max_difficulty)
  (* 2. WHITESPACE *)
  else if String.eqb (remove_blanks ours) (remove_blanks theirs) then
    (WHITESPACE, max_difficulty)
  (* 3. FUNCTION SIGNATURE *)
  else if any_in definition_keywords (ours +:+ theirs) then
    (FUNCTION_SIGNATURE, max max_difficulty MEDIUM)
  (* 4. RENAME DETECTOR *)
  else if rename_detector ours theirs then
    (RENAME, max max_difficulty MEDIUM)
  (* 5. Default: LOGIC *)
  else (LOGIC, HARD).

(** One iteration of the loop on the pair
    [(conflict_types, max_difficulty)]. *)
Definition classify_step (state : list ConflictType * Difficulty)
    (marker : ConflictBlock) : list ConflictType * Difficulty :=
  let '(conflict_types, max_difficulty) := state in
  let '(t, max_difficulty) := classify_block marker max_difficulty in
  (conflict_types ++ [t], max_difficulty).

Definition classify_all (markers : list ConflictBlock)
    : list ConflictType * Difficulty :=
  fold_left classify_step markers ([], EASY).

Definition priority : list ConflictType :=
  [LOGIC; FUNCTION_SIGNATURE; REFACTOR; RENAME; IMPORT; WHITESPACE].

(** [t in conflict_types] *)
Definition type_in (t : ConflictType) (ts : list ConflictType) : bool :=
  bool_decide (t ∈ ts).

Definition primary_type_of (conflict_types : list ConflictType)
    : ConflictType :=
  match conflict_types with
  | [] => UNKNOWN
  | first :: _ =>
      match find (fun t => type_in t conflict_types) priority with
      | Some t => t
      | None => first
      end
  end.

Definition mechanical : list ConflictType := [IMPORT; WHITESPACE].

(** The dictionary returned by [categorize_conflict]; a key absent from the
    returned shape is [None]. *)
Record Verdict := mkVerdict {
  type : string;
  difficulty : string;
  auto_resolvable : bool;
  reason : option string;
  all_types : option (list string);
  num_conflicts : option nat
}.

(** [categorize_conflict] from the point where [markers] is known. *)
Definition categorize_markers (markers : list ConflictBlock) : Verdict :=
  match markers with
  | [] =>
      {| type := ConflictType_value UNKNOWN;
         difficulty := Difficulty_value MEDIUM;
         auto_resolvable := false;
         reason := Some "No conflict markers found";
         all_types := None;
         num_conflicts := None |}
  | _ :: _ =>
      let '(conflict_types, max_difficulty) := classify_all markers in
      let primary_type := primary_type_of conflict_types in
      let auto_resolvable :=
        forallb (fun t => type_in t mechanical) conflict_types in
      let max_difficulty :=
        if bool_decide (primary_type = LOGIC) then
          if 3 <? length markers then ESCALATE else HARD
        else max_difficulty in
      {| type := ConflictType_value primary_type;
         difficulty := Difficulty_value max_difficulty;
         auto_resolvable := auto_resolvable;
         reason := None;
         all_types := Some (ConflictType_value <$> conflict_types);
         num_conflicts := Some (length markers) |}
  end.

(** ** Operations that touch the environment *)

(** What [open(filepath).read()] gives: the text, or an exception with its
    message. *)
Inductive ReadResult :=
  | Content (text : string)
  | ReadError (message : string).

(** What [ast.parse(code)] does: returns, raises [SyntaxError] with its
    [lineno] and [msg], or raises another exception with its [str(e)]. *)
Inductive ParseOutcome :=
  | Parsed
  | SyntaxError (lineno : option nat) (msg : string)
  | OtherError (message : string).

Record ThreeWay := mkThreeWay {
  tw_filepath : string;
  tw_base : option string;
  tw_ours : option string;
  tw_theirs : option string;
  tw_markers : list ConflictBlock
}.

Record Dependencies := mkDependencies {
  imports : list string;
  functions : list string;
  variables : list string
}.

Record ValidationReport := mkReport {
  vr_filepath : string;
  language : string;
  syntax_valid : option bool;
  semantic_errors : list string;
  warnings : list string
}.

Definition lang_map : list (string * string) :=
  [(".py", "python");
   (".js", "javascript"); (".ts", "typescript");
   (".go", "go"); (".rs", "rust");
   (".java", "java"); (".cpp", "cpp"); (".c", "c")].

(** [d.get(key, default)] on a dictionary written as a list of items. *)
Fixpoint get (d : list (string * string)) (key default : string) : string :=
  match d with
  | [] => default
  | (k, v) :: d' => if String.eqb k key then v else get d' key default
  end.

Definition import_patterns : list string :=
  ["^\s*import\s+[\w., ]+";
   "^\s*from\s+[\w.]+\s+import\s+";
   "^\s*#include\s*[<" +:+ chr DQUOTE +:+ "][\w./]+[>" +:+ chr DQUOTE +:+ "]"].

Definition func_pattern : string := "\b(?:def|function|func)\s+(\w+)\s*\(".

Definition marker_tokens : list string := ["<<<<<<<"; "======="; ">>>>>>>"].

(** The [{e.lineno}] of an f-string. *)
Definition format_lineno (lineno : option nat) : string :=
  match lineno with
  | Some n => pretty n
  | None => "None"
  end.

Section Environment.

(** [open(filepath, 'r', encoding='utf-8').read()] *)
Variable read_file : string -> ReadResult.
(** [git show :<stage>:<filepath>]: the blob, or [None] when the command
    fails. *)
Variable git_show : string -> string -> option string.
(** [ast.parse] *)
Variable ast_parse : string -> ParseOutcome.
(** [re.findall(pattern, content, flags)]; the flag is [re.MULTILINE]. *)
Variable re_findall : string -> bool -> string -> list string.
(** [Path(filepath).suffix.lower()] *)
Variable suffix_lower : string -> string.

Definition extract_three_way (filepath : string) : ThreeWay :=
  let markers :=
    match read_file filepath with
    | Content content =>
        match parse_conflict_markers content with
        | Ok markers => markers
        | _ => []
        end
    | ReadError _ => []
    end in
  {| tw_filepath := filepath;
     tw_base := git_show "1" filepath;
     tw_ours := git_show "2" filepath;
     tw_theirs := git_show "3" filepath;
     tw_markers := markers |}.

Definition analyze_dependencies (filepath : string) : Dependencies :=
  match read_file filepath with
  | ReadError _ =>
      {| imports := []; functions := []; variables := [] |}
  | Content content =>
      let imports :=
        fold_left
          (fun imports pattern => imports ++ re_findall pattern true content)
          import_patterns [] in
      let functions := re_findall func_pattern false content in
      {| imports := take 20 imports;
         functions := take 20 functions;
         variables := [] |}
  end.

Definition categorize_conflict (filepath : string) : Verdict :=
  let data := extract_three_way filepath in
  let markers := tw_markers data in
  categorize_markers markers.

Definition validate_file (filepath : string) (language : option string)
    : ValidationReport :=
  let language :=
    match language with
    | None => get lang_map (suffix_lower filepath) "unknown"
    | Some language => language
    end in
  let results :=
    {| vr_filepath := filepath;
       language := language;
       syntax_valid := None;
       semantic_errors := [];
       warnings := [] |} in
  let results :=
    if String.eqb language "python" then
      match read_file filepath with
      | Content code =>
          match ast_parse code with
          | Parsed =>
              {| vr_filepath := vr_filepath results;
                 language := language;
                 syntax_valid := Some true;
                 semantic_errors := semantic_errors results;
                 warnings := warnings results |}
          | SyntaxError lineno msg =>
              {| vr_filepath := vr_filepath results;
                 language := language;
                 syntax_valid := Some false;
                 semantic_errors :=
                   semantic_errors results ++
                   ["Line " +:+ format_lineno lineno +:+ ": " +:+ msg];
                 warnings := warnings results |}
          | OtherError message =>
              {| vr_filepath := vr_filepath results;
                 language := language;
                 syntax_valid := syntax_valid results;
                 semantic_errors := semantic_errors results;
                 warnings :=
                   warnings results ++ ["Validation error: " +:+ message] |}
          end
      | ReadError message =>
          {| vr_filepath := vr_filepath results;
             language := language;
             syntax_valid := syntax_valid results;
             semantic_errors := semantic_errors results;
             warnings :=
               warnings results ++ ["Validation error: " +:+ message] |}
      end
    else
      {| vr_filepath := vr_filepath results;
         language := language;
         syntax_valid := Some true;
         semantic_errors := semantic_errors results;
         warnings :=
           warnings results ++
           ["No syntax validator available for " +:+ language] |} in
  (* Check for remaining conflict markers *)
  match read_file filepath with
  | Content content =>
      if any_in marker_tokens content then
        {| vr_filepath := vr_filepath results;
           language := language;
           syntax_valid := Some false;
           semantic_errors :=
             semantic_errors results ++ ["Conflict markers still present"];
           warnings := warnings results |}
      else results
  | ReadError message =>
      {| vr_filepath := vr_filepath results;
         language := language;
         syntax_valid := syntax_valid results;
         semantic_errors := semantic_errors results;
         warnings :=
           warnings results ++ ["Could not check for markers: " +:+ message] |}
  end.

End Environment.

(** ** Operations that run the version-control tool *)

(** [content.splitlines()], the line terminators dropped; [cur] is the
    line being read. *)
Fixpoint splitlines_noends_from (cur : string) (s : string) : list string :=
  match s with
  | EmptyString => if String.eqb cur "" then [] else [cur]
  | String c s' =>
      if Ascii.eqb c CR then
        match s' with
        | String d s'' =>
            if Ascii.eqb d LF
            then cur :: splitlines_noends_from "" s''
            else cur :: splitlines_noends_from "" s'
        | EmptyString => [cur]
        end
      else if is_linebreak c then cur :: splitlines_noends_from "" s'
      else splitlines_noends_from (cur +:+ chr c) s'
  end.

Definition splitlines_noends (content : string) : list string :=
  splitlines_noends_from "" content.

(** [s[n:]] *)
Fixpoint slice_from (n : nat) (s : string) : string :=
  match n, s with
  | 0, _ => s
  | S n', String _ s' => slice_from n' s'
  | S _, EmptyString => ""
  end.

(** What [subprocess.run] does with a command line: the process exits
    with a return code and its two captured streams, or the call itself
    fails (the program is missing, the output is not text). *)
Inductive ProcessOutcome :=
  | Exited (code : Z) (out err : string)
  | Failed (message : string).

Record CompletedProcess := mkCompleted {
  returncode : Z;
  stdout : string;
  stderr : string
}.

(** The exceptions these operations raise. *)
Inductive exn :=
  | CalledProcessError (code : Z) (err : string)
  | OtherException (message : string)
  | RuntimeError (cause : exn).

Inductive outcome (A : Type) :=
  | Returned (x : A)
  | Raised (e : exn).
Arguments Returned {A} x.
Arguments Raised {A} e.

(** The dictionary returned by [get_context]. *)
Record Context := mkContext {
  ctx_filepath : string;
  merge_base : option string;
  ours_commits : list string;
  theirs_commits : list string;
  dependencies : Dependencies
}.

(** [[line.strip() for line in text.splitlines()]] *)
Definition stripped_lines (text : string) : list string :=
  strip <$> splitlines_noends text.

Section Git.

Variable subprocess_run : list string -> ProcessOutcome.
Variable read_file : string -> ReadResult.
Variable re_findall : string -> bool -> string -> list string.

(** With [check], a non-zero return code is [CalledProcessError], which
    the handler reports and raises again; without it the result is
    returned whatever the code. *)
Definition run_git_command (args : list string) (check : bool)
    : outcome CompletedProcess :=
  match subprocess_run ("git" :: args) with
  | Exited code out err =>
      if check && negb (code =? 0)%Z then Raised (CalledProcessError code err)
      else Returned {| returncode := code; stdout := out; stderr := err |}
  | Failed message => Raised (OtherException message)
  end.

Definition list_conflicts : outcome (list string) :=
  match run_git_command ["status"; "--porcelain"] true with
  | Raised e => Raised e
  | Returned result =>
      let conflicts :=
        if String.eqb (stdout result) "" then []
        else
          fold_left
            (fun conflicts line =>
               (* UU = both modified, AA = both added *)
               if startswith line "UU " || startswith line "AA " then
                 let filepath := strip (slice_from 3 line) in
                 conflicts ++ [filepath]
               else conflicts)
            (splitlines_noends (stdout result)) [] in
      Returned conflicts
  end.

(** The stage lookup of [extract_three_way]: the blob when the command
    returns with code 0, [None] when it returns another code or raises. *)
Definition git_show (stage_num filepath : string) : option string :=
  match run_git_command ["show"; ":" +:+ stage_num +:+ ":" +:+ filepath]
          false with
  | Returned result =>
      if (returncode result =? 0)%Z then Some (stdout result) else None
  | Raised _ => None
  end.

(** One [git log --oneline --no-merges <range> -- <filepath>] of
    [get_context]: the commits it sets, or the exception it raises. *)
Definition log_commits (range filepath : string) (commits : list string)
    : outcome (list string) :=
  match run_git_command
          ["log"; "--oneline"; "--no-merges"; range; "--"; filepath]
          false with
  | Returned result =>
      if String.eqb (stdout result) "" then Returned commits
      else Returned (stripped_lines (stdout result))
  | Raised e => Raised e
  end.

(** [get_context]; its parameter [lines_context] is not used by the
    body. *)
Definition get_context (filepath : string) : Context :=
  (* Get merge base *)
  let merge_base :=
    match run_git_command ["merge-base"; "HEAD"; "MERGE_HEAD"] true with
    | Returned result => Some (strip (stdout result))
    | Raised _ => None
    end in
  let ours_commits := [] in
  let theirs_commits := [] in
  let '(ours_commits, theirs_commits) :=
    match merge_base with
    | Some base =>
        if String.eqb base "" then (ours_commits, theirs_commits)
        else
          match log_commits (base +:+ "..HEAD") filepath ours_commits with
          | Raised _ => (ours_commits, theirs_commits)
          | Returned ours_commits =>
              match log_commits (base +:+ "..MERGE_HEAD") filepath
                      theirs_commits with
              | Raised _ => (ours_commits, theirs_commits)
              | Returned theirs_commits => (ours_commits, theirs_commits)
              end
          end
    | None => (ours_commits, theirs_commits)
    end in
  let dependencies := analyze_dependencies read_file re_findall filepath in
  {| ctx_filepath := filepath;
     merge_base := merge_base;
     ours_commits := ours_commits;
     theirs_commits := theirs_commits;
     dependencies := dependencies |}.

(** [create_backup]; [timestamp] is
    [datetime.now().strftime('%Y%m%d-%H%M%S')]. *)
Definition create_backup (timestamp : string) (branch_name : option string)
    : outcome string :=
  let branch_name :=
    match branch_name with
    | None => "backup-merge-" +:+ timestamp
    | Some branch_name => branch_name
    end in
  match run_git_command ["branch"; branch_name] true with
  | Returned _ => Returned branch_name
  | Raised e => Raised (RuntimeError e)
  end.

End Git.

(** ** Vocabulary of the properties *)

Definition is_open (line : string) : bool := startswith line "<<<<<<<".
Definition is_separator (line : string) : bool := startswith line "=======".
Definition is_close (line : string) : bool := startswith line ">>>>>>>".

(** A marker line is a line that begins with one of the three tokens. *)
Definition is_marker (line : string) : bool :=
  is_open line || is_separator line || is_close line.

(** The block the parser builds from an opening line [first] at index
    [length before], the content lines [mine], a separator, the content
    lines [yours] and a closing line [last]. *)
Definition block_of (before : list string) (first : string)
    (mine yours : list string) (last : string) : ConflictBlock :=
  {| start_line := length before + 1;
     end_line := length before + length mine + length yours + 3;
     ours := join "" mine;
     theirs := join "" yours;
     ours_label := strip first;
     theirs_label := strip last |}.

(** [b] is delimited in [lines] by an opening line, the first separator
    line after it and the first closing line after that separator. *)
Definition delimited (lines : list string) (b : ConflictBlock) : Prop :=
  ∃ before first mine sep yours last after,
    lines = before ++ first :: mine ++ sep :: yours ++ last :: after ∧
    is_open first = true ∧ is_separator sep = true ∧ is_close last = true ∧
    Forall (fun l => is_separator l = false) mine ∧
    Forall (fun l => is_close l = false) yours ∧
    b = block_of before first mine yours last.

(** No line of [text] begins with a marker token. *)
Definition marker_free (text : string) : Prop :=
  Forall (fun l => is_marker l = false) (splitlines text).

(** The type the classifier gives to one block. *)
Definition block_type (marker : ConflictBlock) : ConflictType :=
  fst (classify_block marker EASY).

(** [floor <= d] in the order of [Difficulty.__lt__]. *)
Definition at_least (floor d : Difficulty) : Prop :=
  Difficulty_lt d floor = false.

(** The value of [max_difficulty] after the loop over [markers], started
    at [d]. *)
Definition running (markers : list ConflictBlock) (d : Difficulty)
    : Difficulty :=
  fold_left (fun d marker => snd (classify_block marker d)) markers d.

(** The blocks the classifier works on for a file. *)
Definition parsed_blocks (read_file : string -> ReadResult)
    (filepath : string) : list ConflictBlock :=
  tw_markers (extract_three_way read_file (fun _ _ => None) filepath).

(** Every character of [s] is whitespace for [strip]. *)
Fixpoint all_space (s : string) : bool :=
  match s with
  | EmptyString => true
  | String c s' => is_space c && all_space s'
  end.

(** No character of [s] is whitespace for [strip]. *)
Fixpoint no_space (s : string) : bool :=
  match s with
  | EmptyString => true
  | String c s' => negb (is_space c) && no_space s'
  end.

(** The blocks lie one after the other below line [n]: each starts after
    [n], spans at least three lines, and the next ones lie below its last
    line. *)
Fixpoint ordered_from (n : nat) (blocks : list ConflictBlock) : Prop :=
  match blocks with
  | [] => True
  | b :: blocks' =>
      n < start_line b ∧ start_line b + 2 ≤ end_line b ∧
      ordered_from (end_line b) blocks'
  end.

(** [b] moved down by [n] lines. *)
Definition shift (n : nat) (b : ConflictBlock) : ConflictBlock :=
  {| start_line := n + start_line b;
     end_line := n + end_line b;
     ours := ours b;
     theirs := theirs b;
     ours_label := ours_label b;
     theirs_label := theirs_label b |}.

(** The difficulty the verdict reports for a primary type and a number of
    blocks. *)
Definition difficulty_of (primary : ConflictType) (n : nat) : Difficulty :=
  match primary with
  | LOGIC => if 3 <? n then ESCALATE else HARD
  | FUNCTION_SIGNATURE | RENAME => MEDIUM
  | _ => EASY
  end.

(** The position of a type in [priority]; a smaller number is more
    severe. *)
Definition severity (t : ConflictType) : nat :=
  match t with
  | LOGIC => 0
  | FUNCTION_SIGNATURE => 1
  | REFACTOR => 2
  | RENAME => 3
  | IMPORT => 4
  | WHITESPACE => 5
  | UNKNOWN => 6
  end.

(** The verdict for a file without blocks. *)
Definition unknown_verdict : Verdict :=
  {| type := "UNKNOWN"; difficulty := "MEDIUM"; auto_resolvable := false;
     reason := Some "No conflict markers found"; all_types := None;
     num_conflicts := None |}.

(** A porcelain status line of a conflicted file. *)
Definition is_conflict_line (line : string) : bool :=
  startswith line "UU " || startswith line "AA ".

(** ** Sample inputs *)

Definition unlines (ls : list string) : string :=
  join "" ((fun l => l +:+ chr LF) <$> ls).

(** One complete conflict with an embedded blank line, between ordinary
    lines. *)
Definition single_triple_text : string :=
  unlines ["x = 0"; "<<<<<<< HEAD"; "a = 1"; ""; "b = 2"; "=======";
           "a = 3"; ">>>>>>> feature"; "y = 0"].

Definition single_triple_block : ConflictBlock :=
  {| start_line := 2; end_line := 8;
     ours := "a = 1" +:+ chr LF +:+ chr LF +:+ "b = 2" +:+ chr LF;
     theirs := "a = 3" +:+ chr LF;
     ours_label := "<<<<<<< HEAD"; theirs_label := ">>>>>>> feature" |}.

(** An opening marker line inside the ours side of a complete conflict. *)
Definition nested_text : string :=
  unlines ["<<<<<<< a"; "<<<<<<< b"; "======="; "x"; ">>>>>>> c"].

Definition nested_block : ConflictBlock :=
  {| start_line := 1; end_line := 5;
     ours := "<<<<<<< b" +:+ chr LF; theirs := "x" +:+ chr LF;
     ours_label := "<<<<<<< a"; theirs_label := ">>>>>>> c" |}.

(** An opening marker that is never closed. *)
Definition unterminated_text : string :=
  unlines ["x = 0"; "<<<<<<< HEAD"; "a = 1"; "b = 2"].

(** A conflict whose two sides differ in a numeric constant. *)
Definition retries_conflict : list string :=
  ["<<<<<<< HEAD"; "retries = 2"; "======="; "retries = 3";
   ">>>>>>> feature"].

Definition one_logic_text : string := unlines retries_conflict.

Definition four_logic_text : string :=
  unlines (retries_conflict ++ retries_conflict ++ retries_conflict
           ++ retries_conflict).

(** A conflict whose two sides only differ in an identifier. *)
Definition rename_text : string :=
  unlines ["<<<<<<< HEAD"; "total = old_name + 1"; "=======";
           "total = new_name + 1"; ">>>>>>> feature"].

Definition rename_block : ConflictBlock :=
  {| start_line := 1; end_line := 5;
     ours := "total = old_name + 1" +:+ chr LF;
     theirs := "total = new_name + 1" +:+ chr LF;
     ours_label := "<<<<<<< HEAD"; theirs_label := ">>>>>>> feature" |}.

(** Neither side holds an import substring, their concatenation does. *)
Definition split_import_text : string :=
  unlines ["<<<<<<< HEAD"; "#inc"; "======="; "lude"; ">>>>>>> feature"].

Definition split_import_block : ConflictBlock :=
  {| start_line := 1; end_line := 5;
     ours := "#inc" +:+ chr LF; theirs := "lude" +:+ chr LF;
     ours_label := "<<<<<<< HEAD"; theirs_label := ">>>>>>> feature" |}.

(** The ours side holds [import ] only up to the blank that [strip]
    removes. *)
Definition trailing_import_text : string :=
  unlines ["<<<<<<< HEAD"; "import "; "======="; "x"; ">>>>>>> feature"].

Definition trailing_import_block : ConflictBlock :=
  {| start_line := 1; end_line := 5;
     ours := "import " +:+ chr LF; theirs := "x" +:+ chr LF;
     ours_label := "<<<<<<< HEAD"; theirs_label := ">>>>>>> feature" |}.

(** Environments for the samples: every path reads as the given text. *)
Definition reads (text : string) : string -> ReadResult :=
  fun _ => Content text.

Definition unreadable : string -> ReadResult :=
  fun _ => ReadError "[Errno 2] No such file or directory".

Definition no_git : string -> string -> option string := fun _ _ => None.

(** ** The marker parser: lemmas *)

Lemma append_nil_l (s : string) : "" +:+ s = s.
Proof. reflexivity. Qed.

Lemma append_cons (x : ascii) (a b : string) :
  String x a +:+ b = String x (a +:+ b).
Proof. reflexivity. Qed.

Lemma append_assoc (a b c : string) : (a +:+ b) +:+ c = a +:+ (b +:+ c).
Proof.
  induction a as [|x a IH]; [done|].
  by rewrite !append_cons, IH.
Qed.

Lemma append_empty_r (a : string) : a +:+ "" = a.
Proof.
  induction a as [|x a IH]; [done|].
  by rewrite append_cons, IH.
Qed.

Lemma join_cons (x : string) (xs : list string) :
  join "" (x :: xs) = x +:+ join "" xs.
Proof.
  unfold join. destruct xs as [|y ys]; simpl.
  - by rewrite append_empty_r.
  - done.
Qed.

Lemma string_eqb_empty (s : string) : String.eqb s "" = true ↔ s = "".
Proof. apply String.eqb_eq. Qed.

(** [splitlines] with [keepends] loses nothing: the lines concatenate
    back to the text. *)
Lemma splitlines_from_join (n : nat) : ∀ s cur,
  String.length s ≤ n → join "" (splitlines_from cur s) = cur +:+ s.
Proof.
  induction n as [|n IH]; intros s cur Hlen.
  - destruct s; simpl in Hlen; [|lia]. simpl.
    destruct (String.eqb cur "") eqn:E.
    + apply string_eqb_empty in E. by subst.
    + unfold join. simpl. by rewrite append_empty_r.
  - destruct s as [|c s']; simpl in *.
    + destruct (String.eqb cur "") eqn:E.
      * apply string_eqb_empty in E. by subst.
      * unfold join. simpl. by rewrite append_empty_r.
    + destruct (Ascii.eqb c CR) eqn:Ec.
      * apply Ascii.eqb_eq in Ec. subst c.
        destruct s' as [|d s''].
        { unfold join. simpl. done. }
        destruct (Ascii.eqb d LF) eqn:Ed.
        { apply Ascii.eqb_eq in Ed. subst d.
          rewrite join_cons, IH by (simpl in Hlen; lia).
          by rewrite append_assoc. }
        { rewrite join_cons, IH by lia. by rewrite append_assoc. }
      * destruct (is_linebreak c).
        { rewrite join_cons, IH by lia. by rewrite append_assoc. }
        { rewrite IH by lia. by rewrite append_assoc. }
Qed.

Lemma splitlines_join (content : string) :
  join "" (splitlines content) = content.
Proof.
  unfold splitlines.
  by rewrite (splitlines_from_join (String.length content)).
Qed.

(** What an inner loop returns, in terms of the lines it walked over. *)
Lemma collect_until_found (token : string) (xs : list string) (m : string)
    (ys : list string) (i : nat) (acc : list string) :
  Forall (fun l => startswith l token = false) xs →
  startswith m token = true →
  collect_until token (xs ++ m :: ys) i acc
  = (Some (i + length xs), i + length xs, acc ++ xs).
Proof.
  intros Hxs Hm. revert i acc.
  induction Hxs as [|x xs Hx _ IH]; intros i acc; simpl.
  - rewrite Hm, Nat.add_0_r, app_nil_r. done.
  - rewrite Hx, IH, <- app_assoc. simpl. repeat f_equal; lia.
Qed.

Lemma collect_until_missing (token : string) (rest : list string) (i : nat)
    (acc : list string) :
  Forall (fun l => startswith l token = false) rest →
  collect_until token rest i acc = (None, i + length rest, acc ++ rest).
Proof.
  intros Hrest. revert i acc.
  induction Hrest as [|x xs Hx _ IH]; intros i acc; simpl.
  - by rewrite Nat.add_0_r, app_nil_r.
  - rewrite Hx, IH, <- app_assoc. simpl. repeat f_equal; lia.
Qed.

(** Every list of lines either has no line beginning with [token], or
    splits at the first such line. *)
Lemma first_marker_split (token : string) (rest : list string) :
  Forall (fun l => startswith l token = false) rest ∨
  ∃ xs m ys, rest = xs ++ m :: ys ∧
    Forall (fun l => startswith l token = false) xs ∧
    startswith m token = true.
Proof.
  induction rest as [|x rest IH].
  - by left.
  - destruct (startswith x token) eqn:Hx.
    + right. exists [], x, rest. by repeat split.
    + destruct IH as [IH | (xs & m & ys & -> & Hxs & Hm)].
      * left. by constructor.
      * right. exists (x :: xs), m, ys. repeat split; [|done]. by constructor.
Qed.

Lemma drop_past_middle (before : list string) (x : string)
    (rest : list string) :
  drop (S (length before)) (before ++ x :: rest) = rest.
Proof.
  rewrite (cons_middle x before rest), app_assoc.
  apply drop_app_length'. rewrite length_app. simpl. lia.
Qed.

Lemma scan_past_end (f : nat) (lines : list string) (i : nat)
    (acc : list ConflictBlock) :
  length lines ≤ i → scan f lines i acc = Ok acc.
Proof.
  intros Hi. destruct f; simpl; by rewrite (lookup_ge_None_2 lines i Hi).
Qed.

(** A line that is not an opening marker is stepped over. *)
Lemma scan_plain (f : nat) (lines : list string) (i : nat) (line : string)
    (acc : list ConflictBlock) :
  lines !! i = Some line → is_open line = false →
  scan (S f) lines i acc = scan f lines (S i) acc.
Proof.
  intros Hline Hopen. unfold is_open in Hopen. simpl.
  by rewrite Hline, Hopen.
Qed.

(** An opening marker with no separator after it: the scan ends there and
    adds nothing. *)
Lemma scan_open_no_separator (f : nat) (before : list string)
    (first : string) (rest : list string) (acc : list ConflictBlock) :
  is_open first = true →
  Forall (fun l => is_separator l = false) rest →
  scan (S f) (before ++ first :: rest) (length before) acc = Ok acc.
Proof.
  intros Hopen Hrest. unfold is_open in Hopen.
  cbn [scan]. rewrite list_lookup_middle by done. rewrite Hopen.
  rewrite drop_past_middle.
  rewrite (collect_until_missing "=======" rest _ [] Hrest).
  cbn [truthy andb]. apply scan_past_end.
  rewrite length_app. simpl. lia.
Qed.

(** An opening marker and a separator with no closing marker after them:
    the scan ends there and adds nothing. *)
Lemma scan_open_no_close (f : nat) (before : list string) (first : string)
    (mine : list string) (sep : string) (rest : list string)
    (acc : list ConflictBlock) :
  is_open first = true →
  Forall (fun l => is_separator l = false) mine →
  is_separator sep = true →
  Forall (fun l => is_close l = false) rest →
  scan (S f) (before ++ first :: mine ++ sep :: rest) (length before) acc
  = Ok acc.
Proof.
  intros Hopen Hmine Hsep Hrest. unfold is_open in Hopen.
  cbn [scan]. rewrite list_lookup_middle by done. rewrite Hopen.
  rewrite drop_past_middle.
  rewrite (collect_until_found "=======" mine sep rest _ [] Hmine Hsep).
  cbn [truthy Nat.add].
  replace (before ++ first :: mine ++ sep :: rest)
    with ((before ++ first :: mine) ++ sep :: rest)
    by (by rewrite <- app_assoc).
  replace (S (length before + length mine))
    with (length (before ++ first :: mine))
    by (rewrite length_app; simpl; lia).
  rewrite drop_past_middle.
  rewrite (collect_until_missing ">>>>>>>" rest _ [] Hrest).
  cbn [truthy andb]. apply scan_past_end.
  rewrite !length_app. simpl. lia.
Qed.

(** A complete triple: the block is appended and the scan resumes after
    the closing marker. *)
Lemma scan_open_block (f : nat) (before : list string) (first : string)
    (mine : list string) (sep : string) (yours : list string)
    (last : string) (after : list string) (acc : list ConflictBlock) :
  is_open first = true →
  Forall (fun l => is_separator l = false) mine →
  is_separator sep = true →
  Forall (fun l => is_close l = false) yours →
  is_close last = true →
  scan (S f) (before ++ first :: mine ++ sep :: yours ++ last :: after)
    (length before) acc
  = scan f (before ++ first :: mine ++ sep :: yours ++ last :: after)
      (length (before ++ first :: mine ++ sep :: yours ++ [last]))
      (acc ++ [block_of before first mine yours last]).
Proof.
  intros Hopen Hmine Hsep Hyours Hlast. unfold is_open in Hopen.
  set (lines := before ++ first :: mine ++ sep :: yours ++ last :: after).
  cbn [scan]. unfold lines at 1. rewrite list_lookup_middle by done.
  rewrite Hopen. unfold lines at 1. rewrite drop_past_middle.
  rewrite (collect_until_found "=======" mine sep _ _ [] Hmine Hsep).
  cbn [truthy Nat.add].
  assert (Hl2 : lines = (before ++ first :: mine) ++ sep :: yours ++ last :: after)
    by (unfold lines; by rewrite <- app_assoc).
  assert (Hn2 : S (length before + length mine)
                = length (before ++ first :: mine))
    by (rewrite length_app; simpl; lia).
  rewrite Hn2. rewrite Hl2 at 1. rewrite drop_past_middle.
  rewrite (collect_until_found ">>>>>>>" yours last _ _ [] Hyours Hlast).
  cbn [truthy Nat.add andb].
  assert (Hl3 : lines
    = (before ++ first :: mine ++ sep :: yours) ++ last :: after).
  { unfold lines. rewrite <- !app_assoc. simpl. by rewrite <- !app_assoc. }
  assert (Hn3 : S (length (before ++ first :: mine) + length yours)
    = length (before ++ first :: mine ++ sep :: yours)).
  { rewrite !length_app. simpl. rewrite length_app. simpl. lia. }
  rewrite Hn3.
  assert (Hlook1 : lines !! length before = Some first)
    by (unfold lines; by apply list_lookup_middle).
  assert (Hlook3 : lines !! length (before ++ first :: mine ++ sep :: yours)
    = Some last) by (rewrite Hl3; by apply list_lookup_middle).
  rewrite Hlook1, Hlook3.
  assert (Hn4 : S (length (before ++ first :: mine ++ sep :: yours))
    = length (before ++ first :: mine ++ sep :: yours ++ [last])).
  { rewrite !length_app. simpl. rewrite !length_app. simpl.
    rewrite length_app. simpl. lia. }
  assert (Hn5 : S (length (before ++ first :: mine) + length yours + 1)
    = length before + length mine + length yours + 3).
  { rewrite length_app. simpl. lia. }
  rewrite Hn4, Hn5. reflexivity.
Qed.

Lemma app_snoc_middle (before : list string) (x : string)
    (rest : list string) :
  before ++ x :: rest = (before ++ [x]) ++ rest.
Proof. by rewrite <- app_assoc. Qed.

Lemma length_snoc (before : list string) (x : string) :
  length (before ++ [x]) = S (length before).
Proof. rewrite length_app. simpl. lia. Qed.

(** The scan always returns, and every block it adds is delimited by a
    full triple of the text. *)
Lemma scan_delimited (f : nat) : ∀ (before rest : list string)
    (acc : list ConflictBlock),
  length rest ≤ f →
  ∃ new, scan f (before ++ rest) (length before) acc = Ok (acc ++ new) ∧
         Forall (delimited (before ++ rest)) new.
Proof.
  induction f as [|f IH]; intros before rest acc Hf.
  - destruct rest; simpl in Hf; [|lia].
    exists []. rewrite !app_nil_r. split; [|done].
    apply scan_past_end. done.
  - destruct rest as [|line rest].
    { exists []. rewrite !app_nil_r. split; [|done].
      apply scan_past_end. done. }
    simpl in Hf.
    destruct (is_open line) eqn:Hopen.
    2:{ rewrite (scan_plain f _ _ line) by
          (done || by apply list_lookup_middle).
        rewrite app_snoc_middle, <- (length_snoc before line).
        apply IH. lia. }
    destruct (first_marker_split "=======" rest)
      as [Hnone | (mine & sep & rest2 & -> & Hmine & Hsep)].
    { exists []. rewrite app_nil_r. split; [|done].
      by apply scan_open_no_separator. }
    destruct (first_marker_split ">>>>>>>" rest2)
      as [Hnone | (yours & last & after & -> & Hyours & Hlast)].
    { exists []. rewrite app_nil_r. split; [|done].
      by apply scan_open_no_close. }
    rewrite scan_open_block by done.
    assert (Hsplit : before ++ line :: mine ++ sep :: yours ++ last :: after
      = (before ++ line :: mine ++ sep :: yours ++ [last]) ++ after).
    { rewrite <- !app_assoc. simpl. rewrite <- !app_assoc. simpl.
      by rewrite <- !app_assoc. }
    destruct (IH (before ++ line :: mine ++ sep :: yours ++ [last]) after
                (acc ++ [block_of before line mine yours last]))
      as (new & Hscan & Hnew).
    { rewrite !length_app in Hf. simpl in Hf. rewrite length_app in Hf.
      simpl in Hf. lia. }
    rewrite <- Hsplit in Hscan, Hnew.
    exists (block_of before line mine yours last :: new). split.
    + rewrite Hscan. by rewrite <- app_assoc.
    + constructor; [|done].
      exists before, line, mine, sep, yours, last, after. by repeat split.
Qed.

(** [parse_conflict_markers] never raises and never runs out of steps. *)
Lemma parse_delimited (content : string) :
  ∃ blocks, parse_conflict_markers content = Ok blocks ∧
            Forall (delimited (splitlines content)) blocks.
Proof.
  unfold parse_conflict_markers.
  destruct (scan_delimited (length (splitlines content)) []
              (splitlines content) []) as (new & Hscan & Hnew); [done|].
  exists new. by split.
Qed.

(** Lines none of which opens a block are all stepped over. *)
Lemma scan_skip_plain (skipped : list string) : ∀ (f : nat)
    (before rest : list string) (acc : list ConflictBlock),
  Forall (fun l => is_open l = false) skipped →
  scan (length skipped + f) (before ++ skipped ++ rest) (length before) acc
  = scan f (before ++ skipped ++ rest) (length (before ++ skipped)) acc.
Proof.
  induction skipped as [|x skipped IH]; intros f before rest acc Hall.
  - simpl. by rewrite app_nil_r.
  - inversion Hall as [|? ? Hx Hrest]; subst.
    cbn [length Nat.add app].
    rewrite (scan_plain _ _ _ x) by (done || by apply list_lookup_middle).
    rewrite (app_snoc_middle before x), <- (length_snoc before x).
    rewrite IH by done. by rewrite <- (app_assoc before [x] skipped).
Qed.

Lemma scan_all_plain (f : nat) (before rest : list string)
    (acc : list ConflictBlock) :
  Forall (fun l => is_open l = false) rest → length rest ≤ f →
  scan f (before ++ rest) (length before) acc = Ok acc.
Proof.
  intros Hall Hf.
  replace f with (length rest + (f - length rest)) by lia.
  generalize (scan_skip_plain rest (f - length rest) before [] acc Hall).
  rewrite !app_nil_r. intros ->.
  apply scan_past_end. done.
Qed.

(** ** The marker parser: properties *)

(** C1. A text whose lines hold exactly one marker triple (an opening
    line, later a separator line, later a closing line, and no other line
    beginning with a marker token) parses to exactly one block: [ours] is
    the concatenation of the lines strictly between the opening line and
    the separator, [theirs] that of the lines strictly between the
    separator and the closing line, terminators kept and blank lines
    included; [start_line] and [end_line] are the 1-based numbers of the
    opening and of the closing line. *)
Theorem parse_single_triple (content : string) (before : list string)
    (first : string) (mine : list string) (sep : string)
    (yours : list string) (last : string) (after : list string) :
  splitlines content
    = before ++ first :: mine ++ sep :: yours ++ last :: after →
  is_open first = true → is_separator sep = true → is_close last = true →
  Forall (fun l => is_marker l = false) (before ++ mine ++ yours ++ after) →
  ∃ b, parse_conflict_markers content = Ok [b] ∧
       ours b = join "" mine ∧ theirs b = join "" yours ∧
       start_line b = length before + 1 ∧
       end_line b = length before + length mine + length yours + 3 ∧
       splitlines content !! (start_line b - 1) = Some first ∧
       splitlines content !! (end_line b - 1) = Some last.
Proof.
  intros Hlines Hfirst Hsep Hlast Hplain.
  rewrite !Forall_app in Hplain.
  destruct Hplain as (Hbefore & Hmine & Hyours & Hafter).
  assert (Hsub : ∀ ls, Forall (fun l => is_marker l = false) ls →
    Forall (fun l => is_open l = false) ls ∧
    Forall (fun l => is_separator l = false) ls ∧
    Forall (fun l => is_close l = false) ls).
  { intros ls Hls. repeat split; eapply Forall_impl; try exact Hls;
      intros l Hl; unfold is_marker in Hl;
      destruct (is_open l), (is_separator l), (is_close l); done. }
  exists (block_of before first mine yours last).
  split; [|repeat split].
  - unfold parse_conflict_markers. rewrite Hlines.
    assert (Hlen :
      length (before ++ first :: mine ++ sep :: yours ++ last :: after)
      = length before + S (length mine + length yours + 2 + length after)).
    { rewrite !length_app. simpl. rewrite !length_app. simpl.
      rewrite length_app. simpl. lia. }
    rewrite Hlen.
    generalize (scan_skip_plain before
      (S (length mine + length yours + 2 + length after)) []
      (first :: mine ++ sep :: yours ++ last :: after) []
      (proj1 (Hsub _ Hbefore))).
    cbn [app length]. intros ->.
    rewrite scan_open_block;
      [| done | apply (Hsub _ Hmine) | done | apply (Hsub _ Hyours) | done].
    replace (before ++ first :: mine ++ sep :: yours ++ last :: after)
      with ((before ++ first :: mine ++ sep :: yours ++ [last]) ++ after).
    2:{ rewrite <- !app_assoc. simpl. rewrite <- !app_assoc. simpl.
        by rewrite <- !app_assoc. }
    apply scan_all_plain; [apply (Hsub _ Hafter) | lia].
  - simpl. replace (length before + 1 - 1) with (length before) by lia.
    rewrite Hlines. by apply list_lookup_middle.
  - simpl. rewrite Hlines.
    replace (before ++ first :: mine ++ sep :: yours ++ last :: after)
      with ((before ++ first :: mine ++ sep :: yours) ++ last :: after).
    2:{ rewrite <- !app_assoc. simpl. by rewrite <- !app_assoc. }
    apply list_lookup_middle.
    rewrite !length_app. simpl. rewrite length_app. simpl. lia.
Qed.

Lemma parse_single_triple_witness :
  ∃ b, parse_conflict_markers single_triple_text = Ok [b] ∧
       ours b = join "" ["a = 1" +:+ chr LF; chr LF; "b = 2" +:+ chr LF] ∧
       theirs b = join "" ["a = 3" +:+ chr LF] ∧
       start_line b = 2 ∧ end_line b = 8 ∧
       splitlines single_triple_text !! (start_line b - 1)
         = Some ("<<<<<<< HEAD" +:+ chr LF) ∧
       splitlines single_triple_text !! (end_line b - 1)
         = Some (">>>>>>> feature" +:+ chr LF).
Proof.
  apply (parse_single_triple single_triple_text
           ["x = 0" +:+ chr LF] ("<<<<<<< HEAD" +:+ chr LF)
           ["a = 1" +:+ chr LF; chr LF; "b = 2" +:+ chr LF]
           ("=======" +:+ chr LF) ["a = 3" +:+ chr LF]
           (">>>>>>> feature" +:+ chr LF) ["y = 0" +:+ chr LF]).
  - vm_compute. reflexivity.
  - vm_compute. reflexivity.
  - vm_compute. reflexivity.
  - vm_compute. reflexivity.
  - repeat constructor.
Defined.

(** C7, as stated, fails: the parser keeps an opening marker line met
    while collecting as content, so an emitted block can hold a marker
    line inside its [ours] text. *)
Lemma nested_marker_kept :
  parse_conflict_markers nested_text = Ok [nested_block] ∧
  ("<<<<<<< b" +:+ chr LF) ∈ splitlines (ours nested_block) ∧
  is_open ("<<<<<<< b" +:+ chr LF) = true ∧
  ¬ marker_free (ours nested_block).
Proof.
  split; [vm_compute; reflexivity|].
  split; [vm_compute; apply list_elem_of_here|].
  split; [vm_compute; reflexivity|].
  intros Hfree. unfold marker_free in Hfree.
  vm_compute in Hfree. inversion Hfree as [|? ? Hhead _]. discriminate Hhead.
Qed.

(** C7, amended. For every text the parser returns, and every block it
    returns is delimited by three marker lines of the text in order: an
    opening line, the first separator line after it, and the first closing
    line after that separator.  The [ours] lines hold no separator line and
    the [theirs] lines hold no closing line; other marker lines between the
    delimiters are kept as content. *)
Theorem parse_blocks_delimited (content : string) :
  ∃ blocks,
    parse_conflict_markers content = Ok blocks ∧
    ∀ b, b ∈ blocks →
      ∃ before first mine sep yours last after,
        splitlines content
          = before ++ first :: mine ++ sep :: yours ++ last :: after ∧
        is_open first = true ∧ is_separator sep = true ∧
        is_close last = true ∧
        Forall (fun l => is_separator l = false) mine ∧
        Forall (fun l => is_close l = false) yours ∧
        start_line b = length before + 1 ∧
        end_line b = length before + length mine + length yours + 3 ∧
        ours b = join "" mine ∧ theirs b = join "" yours.
Proof.
  destruct (parse_delimited content) as (blocks & Hparse & Hall).
  exists blocks. split; [done|]. intros b Hb.
  rewrite Forall_forall in Hall.
  destruct (Hall b Hb) as (before & first & mine & sep & yours & last &
    after & Hlines & Hfirst & Hsep & Hlast & Hmine & Hyours & ->).
  exists before, first, mine, sep, yours, last, after. by repeat split.
Qed.

(** C8. Where the outer loop stands on an opening marker line that no
    separator line follows, or whose separator no closing line follows,
    it returns the blocks found so far and nothing more, without an
    error; a text in which an opening marker is reached and never
    completed parses to no block, and so does any text without a
    separator line or without a closing line. *)
Theorem unterminated_block_dropped :
  (∀ f before first rest acc,
     is_open first = true →
     Forall (fun l => is_separator l = false) rest →
     scan (S f) (before ++ first :: rest) (length before) acc = Ok acc) ∧
  (∀ f before first mine sep rest acc,
     is_open first = true →
     Forall (fun l => is_separator l = false) mine →
     is_separator sep = true →
     Forall (fun l => is_close l = false) rest →
     scan (S f) (before ++ first :: mine ++ sep :: rest) (length before) acc
     = Ok acc) ∧
  (∀ content before first rest,
     splitlines content = before ++ first :: rest →
     Forall (fun l => is_open l = false) before →
     is_open first = true →
     Forall (fun l => is_separator l = false) rest ∨
     Forall (fun l => is_close l = false) rest →
     parse_conflict_markers content = Ok []) ∧
  (∀ content,
     Forall (fun l => is_separator l = false) (splitlines content) ∨
     Forall (fun l => is_close l = false) (splitlines content) →
     parse_conflict_markers content = Ok []).
Proof.
  split; [|split; [|split]].
  - intros. by apply scan_open_no_separator.
  - intros. by apply scan_open_no_close.
  - intros content before first rest Hlines Hbefore Hfirst Hrest.
    unfold parse_conflict_markers. rewrite Hlines.
    replace (length (before ++ first :: rest))
      with (length before + S (length rest))
      by (rewrite length_app; simpl; lia).
    generalize (scan_skip_plain before (S (length rest)) []
                  (first :: rest) [] Hbefore).
    cbn [app length]. intros ->.
    destruct Hrest as [Hnosep | Hnoclose].
    + by apply scan_open_no_separator.
    + destruct (first_marker_split "=======" rest)
        as [Hnone | (mine & sep & rest2 & -> & Hmine & Hsep)].
      * by apply scan_open_no_separator.
      * apply scan_open_no_close; try done.
        rewrite Forall_app, Forall_cons in Hnoclose. tauto.
  - intros content Hnone.
    destruct (parse_delimited content) as (blocks & Hparse & Hall).
    rewrite Hparse. f_equal.
    destruct blocks as [|b blocks]; [done|]. exfalso.
    inversion Hall as [|? ? Hb _]; subst.
    destruct Hb as (before & first & mine & sep & yours & last & after &
      Hlines & _ & Hsep & Hlast & _).
    rewrite Hlines in Hnone.
    repeat (rewrite Forall_app in Hnone || rewrite Forall_cons in Hnone).
    destruct Hnone as [H | H]; destruct H as (_ & _ & _ & Hs & _ & Hl & _);
      congruence.
Qed.

Lemma unterminated_block_dropped_witness :
  parse_conflict_markers unterminated_text = Ok [].
Proof.
  apply (proj1 (proj2 (proj2 unterminated_block_dropped))
           unterminated_text ["x = 0" +:+ chr LF]
           ("<<<<<<< HEAD" +:+ chr LF)
           ["a = 1" +:+ chr LF; "b = 2" +:+ chr LF]).
  - vm_compute. reflexivity.
  - repeat constructor.
  - vm_compute. reflexivity.
  - left. repeat constructor.
Defined.

(** ** The classifier: lemmas *)

Lemma Difficulty_value_inj (a b : Difficulty) :
  Difficulty_value a = Difficulty_value b → a = b.
Proof. destruct a, b; simpl; congruence. Qed.

Lemma ConflictType_value_inj (a b : ConflictType) :
  ConflictType_value a = ConflictType_value b → a = b.
Proof. destruct a, b; simpl; congruence. Qed.

(** The type given to a block does not depend on the running maximum. *)
Lemma classify_block_type (marker : ConflictBlock) (d : Difficulty) :
  fst (classify_block marker d) = block_type marker.
Proof.
  unfold block_type, classify_block.
  repeat match goal with |- context [if ?c then _ else _] => destruct c end;
    reflexivity.
Qed.

(** The new running maximum, by the type given to the block. *)
Lemma classify_block_difficulty (marker : ConflictBlock) (d : Difficulty) :
  snd (classify_block marker d) =
    match block_type marker with
    | IMPORT | WHITESPACE => d
    | FUNCTION_SIGNATURE | RENAME => max d MEDIUM
    | _ => HARD
    end.
Proof.
  unfold block_type, classify_block.
  repeat match goal with |- context [if ?c then _ else _] => destruct c end;
    reflexivity.
Qed.

Lemma fold_classify_step (markers : list ConflictBlock) :
  ∀ (ts : list ConflictType) (d : Difficulty),
  fold_left classify_step markers (ts, d)
  = (ts ++ (block_type <$> markers), running markers d).
Proof.
  induction markers as [|m markers IH]; intros ts d; simpl.
  - by rewrite app_nil_r.
  - unfold running. simpl. fold (running markers (snd (classify_block m d))).
    destruct (classify_block m d) as [t d'] eqn:Hm.
    rewrite IH. rewrite <- app_assoc. simpl.
    pose proof (classify_block_type m d) as Ht. rewrite Hm in Ht.
    simpl in Ht. by rewrite Ht.
Qed.

Lemma classify_all_eq (markers : list ConflictBlock) :
  classify_all markers = (block_type <$> markers, running markers EASY).
Proof. unfold classify_all. by rewrite fold_classify_step. Qed.

Lemma type_in_mechanical (t : ConflictType) :
  type_in t mechanical = true ↔ t = IMPORT ∨ t = WHITESPACE.
Proof.
  unfold type_in, mechanical. rewrite bool_decide_eq_true.
  rewrite !elem_of_cons, elem_of_nil. tauto.
Qed.

Lemma running_mechanical (markers : list ConflictBlock) (d : Difficulty) :
  Forall (fun m => block_type m = IMPORT ∨ block_type m = WHITESPACE)
    markers →
  running markers d = d.
Proof.
  intros Hall. revert d.
  induction Hall as [|m markers Hm _ IH]; intros d; [done|].
  unfold running. simpl. fold (running markers (snd (classify_block m d))).
  rewrite IH, classify_block_difficulty. by destruct Hm as [-> | ->].
Qed.

Lemma step_keeps_medium (m : ConflictBlock) (d : Difficulty) :
  at_least MEDIUM d → at_least MEDIUM (snd (classify_block m d)).
Proof.
  rewrite classify_block_difficulty.
  destruct (block_type m), d; vm_compute; congruence.
Qed.

Lemma step_raises (m : ConflictBlock) (d : Difficulty) :
  ¬ (block_type m = IMPORT ∨ block_type m = WHITESPACE) →
  at_least MEDIUM (snd (classify_block m d)).
Proof.
  rewrite classify_block_difficulty. intros Hm.
  destruct (block_type m), d; vm_compute; try congruence;
    exfalso; apply Hm; auto.
Qed.

Lemma running_keeps_medium (markers : list ConflictBlock) :
  ∀ d, at_least MEDIUM d → at_least MEDIUM (running markers d).
Proof.
  induction markers as [|m markers IH]; intros d Hd; [done|].
  unfold running. simpl. fold (running markers (snd (classify_block m d))).
  by apply IH, step_keeps_medium.
Qed.

Lemma running_raised (markers : list ConflictBlock) :
  ∀ d,
  Exists (fun m => ¬ (block_type m = IMPORT ∨ block_type m = WHITESPACE))
    markers →
  at_least MEDIUM (running markers d).
Proof.
  induction markers as [|m markers IH]; intros d Hex.
  - inversion Hex.
  - unfold running. simpl. fold (running markers (snd (classify_block m d))).
    inversion Hex as [? ? Hm | ? ? Hrest]; subst.
    + by apply running_keeps_medium, step_raises.
    + by apply IH.
Qed.

Lemma primary_type_in (ts : list ConflictType) :
  ts ≠ [] → primary_type_of ts ∈ ts.
Proof.
  destruct ts as [|first ts]; [done|]. intros _. unfold primary_type_of.
  destruct (find _ priority) as [t|] eqn:Hfind.
  - apply find_some in Hfind. destruct Hfind as [_ Hin].
    unfold type_in in Hin. by apply bool_decide_eq_true in Hin.
  - apply list_elem_of_here.
Qed.

Lemma primary_type_logic (ts : list ConflictType) :
  primary_type_of ts = LOGIC ↔ LOGIC ∈ ts.
Proof.
  split.
  - intros Hp. destruct ts as [|first ts]; [done|].
    rewrite <- Hp. by apply primary_type_in.
  - intros Hin. destruct ts as [|first ts]; [by apply elem_of_nil in Hin|].
    unfold primary_type_of, priority. cbn [find].
    unfold type_in at 1. by rewrite bool_decide_eq_true_2.
Qed.

Lemma parsed_blocks_eq (read_file : string → ReadResult)
    (git_show : string → string → option string) (filepath : string) :
  tw_markers (extract_three_way read_file git_show filepath)
  = parsed_blocks read_file filepath.
Proof. reflexivity. Qed.

(** The verdict of a file with at least one block, by its parts. *)
Lemma categorize_markers_nonempty (markers : list ConflictBlock) :
  markers ≠ [] →
  categorize_markers markers =
    {| type := ConflictType_value (primary_type_of (block_type <$> markers));
       difficulty := Difficulty_value
         (if bool_decide (primary_type_of (block_type <$> markers) = LOGIC)
          then (if 3 <? length markers then ESCALATE else HARD)
          else running markers EASY);
       auto_resolvable :=
         forallb (fun t => type_in t mechanical) (block_type <$> markers);
       reason := None;
       all_types := Some (ConflictType_value <$> (block_type <$> markers));
       num_conflicts := Some (length markers) |}.
Proof.
  intros Hne. destruct markers as [|m markers]; [done|].
  unfold categorize_markers. by rewrite classify_all_eq.
Qed.

Lemma auto_resolvable_spec (markers : list ConflictBlock) :
  forallb (fun t => type_in t mechanical) (block_type <$> markers) = true ↔
  Forall (fun m => block_type m = IMPORT ∨ block_type m = WHITESPACE) markers.
Proof.
  induction markers as [|m markers IH]; simpl.
  - split; [by constructor | done].
  - rewrite andb_true_iff, IH, type_in_mechanical, Forall_cons. tauto.
Qed.

Lemma not_all_mechanical (markers : list ConflictBlock) :
  ¬ Forall (fun m => block_type m = IMPORT ∨ block_type m = WHITESPACE)
      markers →
  Exists (fun m => ¬ (block_type m = IMPORT ∨ block_type m = WHITESPACE))
    markers.
Proof.
  induction markers as [|m markers IH]; intros Hnot.
  - destruct Hnot. constructor.
  - destruct (decide (block_type m = IMPORT ∨ block_type m = WHITESPACE))
      as [Hm | Hm].
    + apply Exists_cons_tl, IH. intros Hall. apply Hnot. by constructor.
    + by apply Exists_cons_hd.
Qed.

Lemma at_least_medium_not_easy (d : Difficulty) :
  at_least MEDIUM d → d ≠ EASY.
Proof. intros Hd ->. vm_compute in Hd. discriminate Hd. Qed.

(** ** The classifier: properties *)

(** C2. Whenever the file-level primary type is LOGIC, the reported
    difficulty is HARD for a file with at most 3 parsed blocks and
    ESCALATE for a file with more than 3; a file with 4 blocks all
    classified LOGIC gets ESCALATE, and a file whose single block is
    classified LOGIC gets HARD. *)
Theorem logic_escalation (read_file : string → ReadResult)
    (git_show : string → string → option string) (filepath : string) :
  let markers := parsed_blocks read_file filepath in
  let v := categorize_conflict read_file git_show filepath in
  (type v = "LOGIC" →
   difficulty v = if length markers <=? 3 then "HARD" else "ESCALATE") ∧
  (length markers = 4 → Forall (fun m => block_type m = LOGIC) markers →
   type v = "LOGIC" ∧ difficulty v = "ESCALATE") ∧
  (length markers = 1 → Forall (fun m => block_type m = LOGIC) markers →
   type v = "LOGIC" ∧ difficulty v = "HARD").
Proof.
  intros markers v.
  assert (Hv : v = categorize_markers markers) by reflexivity.
  assert (Hlogic : markers ≠ [] →
    Forall (fun m => block_type m = LOGIC) markers →
    primary_type_of (block_type <$> markers) = LOGIC).
  { intros Hne Hall. apply primary_type_logic.
    destruct markers as [|m ms]; [done|].
    inversion Hall as [|? ? Hm _]; subst. simpl. rewrite Hm.
    apply list_elem_of_here. }
  split; [|split].
  - intros Htype.
    destruct (decide (markers = [])) as [Hnil | Hne].
    { rewrite Hv, Hnil in Htype. discriminate Htype. }
    rewrite Hv, (categorize_markers_nonempty _ Hne) in Htype |- *.
    simpl in Htype |- *.
    apply (ConflictType_value_inj _ LOGIC) in Htype. rewrite Htype.
    rewrite bool_decide_eq_true_2 by done.
    destruct (Nat.ltb_spec 3 (length markers)),
             (Nat.leb_spec (length markers) 3); (done || lia).
  - intros Hlen Hall.
    assert (Hne : markers ≠ []) by (intros E; rewrite E in Hlen; done).
    rewrite Hv, (categorize_markers_nonempty _ Hne). simpl.
    rewrite (Hlogic Hne Hall), Hlen. done.
  - intros Hlen Hall.
    assert (Hne : markers ≠ []) by (intros E; rewrite E in Hlen; done).
    rewrite Hv, (categorize_markers_nonempty _ Hne). simpl.
    rewrite (Hlogic Hne Hall), Hlen. done.
Qed.

Lemma logic_escalation_witness :
  type (categorize_conflict (reads four_logic_text) no_git "config.py")
    = "LOGIC" ∧
  difficulty (categorize_conflict (reads four_logic_text) no_git "config.py")
    = "ESCALATE".
Proof.
  split.
  - vm_compute. reflexivity.
  - apply (proj1 (logic_escalation (reads four_logic_text) no_git
                    "config.py")).
    vm_compute. reflexivity.
Defined.

(** C3. For a file with at least one parsed block, [auto_resolvable] is
    true exactly when every entry of the per-block type sequence
    [all_types] is IMPORT or WHITESPACE; that sequence holds the type of
    each block, in block order. *)
Theorem auto_resolvable_iff_mechanical (read_file : string → ReadResult)
    (git_show : string → string → option string) (filepath : string) :
  let markers := parsed_blocks read_file filepath in
  let v := categorize_conflict read_file git_show filepath in
  markers ≠ [] →
  ∃ ts, all_types v = Some ts ∧
        ts = (fun m => ConflictType_value (block_type m)) <$> markers ∧
        (auto_resolvable v = true ↔
         Forall (fun t => t = "IMPORT" ∨ t = "WHITESPACE") ts).
Proof.
  intros markers v Hne.
  assert (Hv : v = categorize_markers markers) by reflexivity.
  rewrite Hv, (categorize_markers_nonempty _ Hne). simpl.
  eexists. split; [reflexivity|]. split.
  - by rewrite <- list_fmap_compose.
  - rewrite auto_resolvable_spec, !Forall_fmap.
    apply Forall_iff. intros m. simpl.
    split.
    + intros [-> | ->]; auto.
    + intros [H | H].
      * left. by apply ConflictType_value_inj.
      * right. by apply ConflictType_value_inj.
Qed.

Lemma auto_resolvable_iff_mechanical_witness :
  ∃ ts, all_types (categorize_conflict (reads rename_text) no_git "a.py")
          = Some ts ∧
        ts = (fun m => ConflictType_value (block_type m))
               <$> parsed_blocks (reads rename_text) "a.py" ∧
        (auto_resolvable (categorize_conflict (reads rename_text) no_git
                            "a.py") = true ↔
         Forall (fun t => t = "IMPORT" ∨ t = "WHITESPACE") ts).
Proof.
  apply (auto_resolvable_iff_mechanical (reads rename_text) no_git "a.py").
  replace (parsed_blocks (reads rename_text) "a.py") with [rename_block]
    by (vm_compute; reflexivity).
  discriminate.
Defined.

(** C10. For a file with at least one parsed block, [auto_resolvable] is
    true exactly when the reported difficulty is EASY: blocks that are all
    IMPORT or WHITESPACE leave the running maximum at EASY, and any
    FUNCTION_SIGNATURE, RENAME or LOGIC block makes the reported
    difficulty at least MEDIUM and [auto_resolvable] false. *)
Theorem auto_resolvable_iff_easy (read_file : string → ReadResult)
    (git_show : string → string → option string) (filepath : string) :
  let markers := parsed_blocks read_file filepath in
  let v := categorize_conflict read_file git_show filepath in
  markers ≠ [] →
  (auto_resolvable v = true ↔ difficulty v = "EASY") ∧
  (Forall (fun m => block_type m = IMPORT ∨ block_type m = WHITESPACE)
     markers →
   snd (classify_all markers) = EASY ∧ difficulty v = "EASY") ∧
  (Exists (fun m => block_type m = FUNCTION_SIGNATURE ∨
                    block_type m = RENAME ∨ block_type m = LOGIC) markers →
   (∃ d, difficulty v = Difficulty_value d ∧ at_least MEDIUM d) ∧
   auto_resolvable v = false).
Proof.
  intros markers v Hne.
  assert (Hv : v = categorize_markers markers) by reflexivity.
  rewrite Hv, (categorize_markers_nonempty _ Hne). simpl.
  rewrite classify_all_eq. simpl.
  set (ts := block_type <$> markers).
  assert (Hmech : Forall (fun m => block_type m = IMPORT ∨
                                   block_type m = WHITESPACE) markers →
    bool_decide (primary_type_of ts = LOGIC) = false ∧
    running markers EASY = EASY).
  { intros Hall. split; [|by apply running_mechanical].
    apply bool_decide_eq_false. rewrite primary_type_logic.
    unfold ts. rewrite list_elem_of_fmap. intros (m & Hm & Hin).
    rewrite Forall_forall in Hall.
    destruct (Hall m Hin) as [E | E]; congruence. }
  assert (Hraise : Exists (fun m => ¬ (block_type m = IMPORT ∨
                                       block_type m = WHITESPACE)) markers →
    at_least MEDIUM
      (if bool_decide (primary_type_of ts = LOGIC)
       then (if 3 <? length markers then ESCALATE else HARD)
       else running markers EASY)).
  { intros Hex. destruct (bool_decide _).
    - destruct (3 <? length markers); vm_compute; reflexivity.
    - by apply running_raised. }
  subst ts. split; [|split].
  - rewrite auto_resolvable_spec. split.
    + intros Hall. destruct (Hmech Hall) as [-> ->]. done.
    + intros Heasy. apply (Difficulty_value_inj _ EASY) in Heasy.
      destruct (decide (Forall (fun m => block_type m = IMPORT ∨
                                         block_type m = WHITESPACE) markers))
        as [Hall | Hnot]; [done|].
      apply not_all_mechanical, Hraise, at_least_medium_not_easy in Hnot.
      done.
  - intros Hall. destruct (Hmech Hall) as [-> ->]. done.
  - intros Hex.
    assert (Hex' : Exists (fun m => ¬ (block_type m = IMPORT ∨
                                       block_type m = WHITESPACE)) markers).
    { eapply Exists_impl; [exact Hex|]. simpl.
      intros m [Hm | [Hm | Hm]] [E | E]; congruence. }
    split.
    + eexists. split; [reflexivity|]. by apply Hraise.
    + apply not_true_is_false. rewrite auto_resolvable_spec.
      intros Hall. rewrite Exists_exists in Hex'.
      destruct Hex' as (m & Hin & Hm). rewrite Forall_forall in Hall.
      by apply Hm, Hall.
Qed.

Lemma auto_resolvable_iff_easy_witness :
  (auto_resolvable (categorize_conflict (reads rename_text) no_git "a.py")
     = true ↔
   difficulty (categorize_conflict (reads rename_text) no_git "a.py")
     = "EASY") ∧
  ((∃ d, difficulty (categorize_conflict (reads rename_text) no_git "a.py")
           = Difficulty_value d ∧ at_least MEDIUM d) ∧
   auto_resolvable (categorize_conflict (reads rename_text) no_git "a.py")
     = false).
Proof.
  assert (Hblocks : parsed_blocks (reads rename_text) "a.py" = [rename_block])
    by (vm_compute; reflexivity).
  assert (Hne : parsed_blocks (reads rename_text) "a.py" ≠ [])
    by (rewrite Hblocks; discriminate).
  split.
  - apply (proj1 (auto_resolvable_iff_easy (reads rename_text) no_git
                    "a.py" Hne)).
  - apply (proj2 (proj2 (auto_resolvable_iff_easy (reads rename_text) no_git
                           "a.py" Hne))).
    rewrite Hblocks. apply Exists_cons_hd. right. left.
    vm_compute. reflexivity.
Defined.

(** *** Words of a side *)

Lemma space_not_word (c : ascii) : is_space c = true → is_word c = false.
Proof.
  destruct c as [[] [] [] [] [] [] [] []]; vm_compute; congruence.
Qed.

Lemma findall_word_lstrip (s : string) :
  findall_word (lstrip s) = findall_word s.
Proof.
  unfold findall_word.
  induction s as [|c s IH]; [done|]. simpl.
  destruct (is_space c) eqn:Hc; [|done].
  by rewrite (space_not_word c Hc).
Qed.

Lemma findall_word_rstrip (s : string) : ∀ cur,
  findall_word_from cur (rstrip s) = findall_word_from cur s.
Proof.
  induction s as [|c s IH]; intros cur; [done|]. simpl.
  destruct (String.eqb (rstrip s) "" && is_space c) eqn:Hc.
  - apply andb_true_iff in Hc. destruct Hc as [Hr Hc].
    apply String.eqb_eq in Hr.
    rewrite (space_not_word c Hc).
    pose proof (IH "") as Hs. rewrite Hr in Hs. simpl in Hs.
    rewrite <- Hs. simpl. by destruct (String.eqb cur "").
  - simpl. destruct (is_word c); [apply IH|].
    destruct (String.eqb cur ""); by rewrite IH.
Qed.

(** [strip] removes no word: the words of a side are those of its
    stripped text. *)
Lemma findall_word_strip (s : string) :
  findall_word (strip s) = findall_word s.
Proof.
  unfold strip, findall_word at 1.
  rewrite findall_word_rstrip. apply findall_word_lstrip.
Qed.

Lemma rename_detector_spec (mine yours : string) :
  let W_ours : gset string := list_to_set (findall_word mine) in
  let W_theirs : gset string := list_to_set (findall_word yours) in
  let D := symmetric_difference W_ours W_theirs in
  rename_detector mine yours = true ↔
  (∀ w, w ∈ D → isdigit w = false) ∧ size D < 3 ∧ W_ours ≠ ∅.
Proof.
  intros W_ours W_theirs D. unfold rename_detector.
  fold W_ours W_theirs D.
  rewrite !andb_true_iff, negb_true_iff, Nat.ltb_lt, Nat.ltb_lt.
  assert (Hdigits : existsb isdigit (elements D) = false ↔
                    ∀ w, w ∈ D → isdigit w = false).
  { split.
    - intros Hnone w Hw. apply not_true_is_false. intros Hd.
      apply not_true_iff_false in Hnone. apply Hnone.
      apply existsb_exists. exists w. split; [|done].
      by apply list_elem_of_In, elem_of_elements.
    - intros Hall. apply not_true_is_false. intros Hsome.
      apply existsb_exists in Hsome. destruct Hsome as (w & Hin & Hd).
      apply list_elem_of_In, elem_of_elements in Hin.
      rewrite (Hall w Hin) in Hd. discriminate Hd. }
  assert (Hsize : 0 < size W_ours ↔ W_ours ≠ ∅).
  { split.
    - intros Hpos Hempty. rewrite Hempty, size_empty in Hpos. lia.
    - intros Hne. destruct (size W_ours) eqn:Hsz; [|lia].
      exfalso. apply Hne. apply leibniz_equiv. by apply size_empty_iff. }
  rewrite Hdigits, Hsize. tauto.
Qed.

(** *** Substrings of a concatenation *)

Lemma prefix_append (k a b : string) :
  String.prefix k a = true → String.prefix k (a +:+ b) = true.
Proof.
  revert a. induction k as [|x k IH]; intros a Hk;
    [by destruct (a +:+ b)|].
  destruct a as [|y a]; [simpl in Hk; discriminate Hk|].
  rewrite append_cons. simpl in *.
  destruct (ascii_dec x y); [by apply IH | discriminate Hk].
Qed.

Lemma contains_unfold (k s : string) :
  contains k s = String.prefix k s ||
    match s with EmptyString => false | String _ s' => contains k s' end.
Proof. by destruct s. Qed.

Lemma contains_append_l (k a b : string) :
  contains k a = true → contains k (a +:+ b) = true.
Proof.
  induction a as [|x a IH]; intros Hk.
  - rewrite contains_unfold in Hk. rewrite orb_false_r in Hk.
    rewrite contains_unfold. by rewrite (prefix_append k "" b Hk).
  - rewrite contains_unfold in Hk. rewrite append_cons, contains_unfold.
    apply orb_true_iff in Hk. destruct Hk as [Hk | Hk].
    + rewrite <- append_cons. by rewrite (prefix_append _ _ b Hk).
    + rewrite (IH Hk). apply orb_true_r.
Qed.

Lemma contains_append_r (k a b : string) :
  contains k b = true → contains k (a +:+ b) = true.
Proof.
  intros Hk. induction a as [|x a IH]; [done|].
  rewrite append_cons, contains_unfold, IH. apply orb_true_r.
Qed.

Lemma any_in_append (keywords : list string) (a b : string) :
  any_in keywords a = true ∨ any_in keywords b = true →
  any_in keywords (a +:+ b) = true.
Proof.
  unfold any_in. rewrite !existsb_exists.
  intros [(k & Hin & Hk) | (k & Hin & Hk)]; exists k; split; try done.
  - by apply contains_append_l.
  - by apply contains_append_r.
Qed.

(** C5. For a block that reaches rule 4 (no import substring matched, the
    sides are not equal up to blanks, no definition keyword matched), with
    W(ours) and W(theirs) the sets of word tokens of the two sides and D
    their symmetric difference: the block is classified RENAME, and the
    running difficulty raised to at least MEDIUM, exactly when D holds no
    purely numeric token, |D| < 3 and W(ours) is non-empty; otherwise it
    is classified LOGIC.  The sides [retries = 2] and [retries = 3] are
    classified LOGIC, not RENAME. *)
Theorem rename_rule :
  (∀ (marker : ConflictBlock) (conflict_types : list ConflictType)
     (max_difficulty : Difficulty),
     let mine := strip (ours marker) in
     let yours := strip (theirs marker) in
     let W_ours : gset string := list_to_set (findall_word (ours marker)) in
     let W_theirs : gset string :=
       list_to_set (findall_word (theirs marker)) in
     let D := symmetric_difference W_ours W_theirs in
     let after := classify_step (conflict_types, max_difficulty) marker in
     any_in import_keywords (mine +:+ yours) = false →
     remove_blanks mine ≠ remove_blanks yours →
     any_in definition_keywords (mine +:+ yours) = false →
     (((∀ w, w ∈ D → isdigit w = false) ∧ size D < 3 ∧ W_ours ≠ ∅) →
      fst after = conflict_types ++ [RENAME] ∧
      snd after = max max_difficulty MEDIUM ∧
      at_least MEDIUM (snd after) ∧ at_least max_difficulty (snd after)) ∧
     (¬ ((∀ w, w ∈ D → isdigit w = false) ∧ size D < 3 ∧ W_ours ≠ ∅) →
      fst after = conflict_types ++ [LOGIC])) ∧
  (∀ s e first last,
     block_type (mkBlock s e "retries = 2" "retries = 3" first last)
     = LOGIC).
Proof.
  split.
  - intros marker conflict_types max_difficulty mine yours W_ours W_theirs D
      after Himport Hblank Hdef.
    pose proof (rename_detector_spec mine yours) as Hspec. simpl in Hspec.
    unfold mine, yours in Hspec. rewrite !findall_word_strip in Hspec.
    fold mine yours W_ours W_theirs D in Hspec.
    apply String.eqb_neq in Hblank.
    assert (Hafter : after =
      if rename_detector mine yours
      then (conflict_types ++ [RENAME], max max_difficulty MEDIUM)
      else (conflict_types ++ [LOGIC], HARD)).
    { unfold after, classify_step, classify_block.
      fold mine yours. rewrite Himport, Hblank, Hdef.
      by destruct (rename_detector mine yours). }
    split.
    + intros Hcond. apply Hspec in Hcond. rewrite Hafter, Hcond. simpl.
      repeat split; destruct max_difficulty; vm_compute; reflexivity.
    + intros Hcond. rewrite Hafter.
      destruct (rename_detector mine yours) eqn:Hr; [|done].
      exfalso. apply Hcond. apply Hspec. reflexivity.
  - intros s e first last. vm_compute. reflexivity.
Qed.

Lemma rename_rule_witness :
  fst (classify_step ([IMPORT], EASY)
         (mkBlock 1 5 "total = old_name + 1" "total = new_name + 1"
            "<<<<<<< HEAD" ">>>>>>> feature"))
  = [IMPORT; RENAME].
Proof.
  apply (proj1 rename_rule
           (mkBlock 1 5 "total = old_name + 1" "total = new_name + 1"
              "<<<<<<< HEAD" ">>>>>>> feature") [IMPORT] EASY).
  - vm_compute. reflexivity.
  - vm_compute. discriminate.
  - vm_compute. reflexivity.
  - apply (proj1 (rename_detector_spec "total = old_name + 1"
                    "total = new_name + 1")).
    vm_compute. reflexivity.
Defined.

(** C6, as stated, fails in both directions.  The test is made on the
    concatenation of the two stripped sides: a keyword split across the
    sides classifies the block IMPORT though neither side holds it, and a
    side that holds [import ] only up to its trailing blank does not. *)
Lemma import_split_across_sides :
  (parse_conflict_markers split_import_text = Ok [split_import_block] ∧
   block_type split_import_block = IMPORT ∧
   any_in import_keywords (ours split_import_block) = false ∧
   any_in import_keywords (theirs split_import_block) = false) ∧
  (parse_conflict_markers trailing_import_text = Ok [trailing_import_block] ∧
   any_in import_keywords (ours trailing_import_block) = true ∧
   block_type trailing_import_block = RENAME).
Proof. vm_compute. repeat split; reflexivity. Qed.

(** C6, amended. A block is classified IMPORT exactly when the
    concatenation of its two sides, each stripped of leading and trailing
    whitespace, contains one of the import substrings; this first rule
    alone decides the IMPORT classification.  In particular a block is
    IMPORT when one of its stripped sides contains such a substring, and
    the sides [import foo] and [import bar] are classified IMPORT. *)
Theorem import_rule :
  (∀ (marker : ConflictBlock) (max_difficulty : Difficulty),
     fst (classify_block marker max_difficulty) = IMPORT ↔
     any_in import_keywords (strip (ours marker) +:+ strip (theirs marker))
     = true) ∧
  (∀ (marker : ConflictBlock) (max_difficulty : Difficulty),
     any_in import_keywords (strip (ours marker)) = true ∨
     any_in import_keywords (strip (theirs marker)) = true →
     fst (classify_block marker max_difficulty) = IMPORT) ∧
  (∀ s e first last,
     block_type (mkBlock s e "import foo" "import bar" first last) = IMPORT).
Proof.
  assert (Hiff : ∀ marker d,
    fst (classify_block marker d) = IMPORT ↔
    any_in import_keywords (strip (ours marker) +:+ strip (theirs marker))
    = true).
  { intros marker d. unfold classify_block.
    destruct (any_in import_keywords _) eqn:Himport; [done|].
    repeat match goal with |- context [if ?c then _ else _] => destruct c end;
      simpl; split; discriminate. }
  split; [exact Hiff | split].
  - intros marker d Hside. by apply Hiff, any_in_append.
  - intros s e first last. vm_compute. reflexivity.
Qed.

Lemma import_rule_witness :
  fst (classify_block
         (mkBlock 1 5 "import os" "x = 1" "<<<<<<< HEAD" ">>>>>>> feature")
         EASY) = IMPORT.
Proof.
  apply (proj1 (proj2 import_rule)
           (mkBlock 1 5 "import os" "x = 1" "<<<<<<< HEAD" ">>>>>>> feature")
           EASY).
  left. vm_compute. reflexivity.
Defined.

(** ** The validation gate and the dependency scanner: properties *)

(** C4. Whenever the text read from the file contains one of the three
    marker tokens, the report has [syntax_valid = false] and ends its
    semantic errors with the residual-marker message, whatever the
    language and whatever the language check did: parsed, reported a
    syntax error, or failed with another error. *)
Theorem residual_markers_force_invalid (read_file : string → ReadResult)
    (ast_parse : string → ParseOutcome) (suffix_lower : string → string)
    (filepath : string) (language : option string) (content : string) :
  read_file filepath = Content content →
  contains "<<<<<<<" content = true ∨ contains "=======" content = true ∨
  contains ">>>>>>>" content = true →
  let report :=
    validate_file read_file ast_parse suffix_lower filepath language in
  syntax_valid report = Some false ∧
  ∃ earlier,
    semantic_errors report = earlier ++ ["Conflict markers still present"].
Proof.
  intros Hread Hmarker report.
  assert (Hany : any_in marker_tokens content = true).
  { unfold any_in, marker_tokens. simpl.
    destruct Hmarker as [-> | [-> | ->]]; by rewrite ?orb_true_r. }
  unfold report, validate_file. rewrite Hread, Hany. simpl.
  split; [done|]. eexists. reflexivity.
Qed.

Lemma residual_markers_force_invalid_witness :
  syntax_valid
    (validate_file (reads one_logic_text)
       (fun _ => OtherError "source code string cannot contain null bytes")
       (fun _ => ".py") "config.py" None) = Some false ∧
  ∃ earlier,
    semantic_errors
      (validate_file (reads one_logic_text)
         (fun _ => OtherError "source code string cannot contain null bytes")
         (fun _ => ".py") "config.py" None)
    = earlier ++ ["Conflict markers still present"].
Proof.
  apply (residual_markers_force_invalid (reads one_logic_text)
           (fun _ => OtherError "source code string cannot contain null bytes")
           (fun _ => ".py") "config.py" None one_logic_text).
  - reflexivity.
  - left. vm_compute. reflexivity.
Defined.

(** C9. The dependency scanner returns three lists: at most 20 imports,
    at most 20 functions, and no variables; when the file cannot be read
    all three are empty and nothing is raised. *)
Theorem dependencies_bounded (read_file : string → ReadResult)
    (re_findall : string → bool → string → list string)
    (filepath : string) :
  let deps := analyze_dependencies read_file re_findall filepath in
  length (imports deps) ≤ 20 ∧ length (functions deps) ≤ 20 ∧
  variables deps = [] ∧
  (∀ message, read_file filepath = ReadError message →
     deps = {| imports := []; functions := []; variables := [] |}).
Proof.
  intros deps. unfold deps, analyze_dependencies.
  destruct (read_file filepath) as [content | message]; simpl.
  - split; [rewrite length_take; lia|]. split; [rewrite length_take; lia|].
    split; [reflexivity|]. intros message Hread. discriminate Hread.
  - split; [lia|]. split; [lia|]. split; reflexivity.
Qed.

Lemma dependencies_bounded_witness :
  analyze_dependencies unreadable (fun _ _ _ => []) "missing.py"
  = {| imports := []; functions := []; variables := [] |}.
Proof.
  apply (proj2 (proj2 (proj2 (dependencies_bounded unreadable
                                (fun _ _ _ => []) "missing.py")))
           "[Errno 2] No such file or directory").
  reflexivity.
Defined.

(** ** Sample runs *)

Example whitespace_sample :
  classify_block
    (mkBlock 1 5 ("x = 1" +:+ chr LF) ("x=1" +:+ chr LF) "<<<<<<< HEAD"
       ">>>>>>> feature") EASY
  = (WHITESPACE, EASY).
Proof. vm_compute. reflexivity. Qed.

Example signature_sample :
  classify_block
    (mkBlock 1 5 "def handle(x):" "def handle(x, y):" "<<<<<<< HEAD"
       ">>>>>>> feature") EASY
  = (FUNCTION_SIGNATURE, MEDIUM).
Proof. vm_compute. reflexivity. Qed.

Example rename_sample :
  categorize_conflict (reads rename_text) no_git "a.py"
  = {| type := "RENAME"; difficulty := "MEDIUM"; auto_resolvable := false;
       reason := None; all_types := Some ["RENAME"];
       num_conflicts := Some 1 |}.
Proof. vm_compute. reflexivity. Qed.

Example one_logic_sample :
  categorize_conflict (reads one_logic_text) no_git "config.py"
  = {| type := "LOGIC"; difficulty := "HARD"; auto_resolvable := false;
       reason := None; all_types := Some ["LOGIC"];
       num_conflicts := Some 1 |}.
Proof. vm_compute. reflexivity. Qed.

Example unreadable_sample :
  categorize_conflict unreadable no_git "missing.py"
  = {| type := "UNKNOWN"; difficulty := "MEDIUM"; auto_resolvable := false;
       reason := Some "No conflict markers found"; all_types := None;
       num_conflicts := None |}.
Proof. vm_compute. reflexivity. Qed.

Example checker_overridden_sample :
  validate_file (reads one_logic_text) (fun _ => Parsed) (fun _ => ".py")
    "config.py" None
  = {| vr_filepath := "config.py"; language := "python";
       syntax_valid := Some false;
       semantic_errors := ["Conflict markers still present"];
       warnings := [] |}.
Proof. vm_compute. reflexivity. Qed.

(** ** Whitespace at the ends of a text *)

Lemma prefix_empty (s : string) : String.prefix "" s = true.
Proof. by destruct s. Qed.

Lemma rstrip_cons_keep (c : ascii) (s : string) :
  is_space c = false → rstrip (String c s) = String c (rstrip s).
Proof. intros Hc. simpl. by rewrite Hc, andb_false_r. Qed.

Lemma rstrip_idempotent (s : string) : rstrip (rstrip s) = rstrip s.
Proof.
  induction s as [|c s IH]; [done|]. simpl.
  destruct (String.eqb (rstrip s) "" && is_space c) eqn:Hc; [done|].
  simpl. by rewrite IH, Hc.
Qed.

Lemma lstrip_head (s : string) :
  lstrip s = "" ∨ ∃ c t, lstrip s = String c t ∧ is_space c = false.
Proof.
  induction s as [|c s IH]; [by left|]. simpl.
  destruct (is_space c) eqn:Hc; [done|]. right. by exists c, s.
Qed.

(** What [strip] returns has nothing left to strip. *)
Lemma strip_idempotent (s : string) : strip (strip s) = strip s.
Proof.
  unfold strip.
  destruct (lstrip_head s) as [-> | (c & t & -> & Hc)]; [done|].
  rewrite (rstrip_cons_keep c t Hc). simpl lstrip. rewrite Hc.
  rewrite <- (rstrip_cons_keep c t Hc). apply rstrip_idempotent.
Qed.

Lemma rstrip_keeps_prefix (token : string) : ∀ s,
  no_space token = true → String.prefix token s = true →
  String.prefix token (rstrip s) = true.
Proof.
  induction token as [|c token IH]; intros s Htoken Hs.
  - apply prefix_empty.
  - simpl in Htoken. apply andb_true_iff in Htoken.
    destruct Htoken as [Hc Htoken]. apply negb_true_iff in Hc.
    destruct s as [|d s]; [simpl in Hs; discriminate Hs|].
    simpl in Hs. destruct (ascii_dec c d) as [<- | ]; [|discriminate Hs].
    rewrite (rstrip_cons_keep c s Hc). simpl.
    destruct (ascii_dec c c); [|done]. by apply IH.
Qed.

(** A line that begins with a token free of whitespace still begins with
    it once stripped. *)
Lemma strip_keeps_prefix (token s : string) :
  no_space token = true → token ≠ "" →
  startswith s token = true → startswith (strip s) token = true.
Proof.
  unfold startswith, strip. intros Htoken Hne Hs.
  destruct token as [|c token]; [done|].
  destruct s as [|d s]; [simpl in Hs; discriminate Hs|].
  assert (Hd : is_space d = false).
  { simpl in Hs, Htoken. destruct (ascii_dec c d) as [<- | ];
      [|discriminate Hs].
    apply andb_true_iff in Htoken. by apply negb_true_iff, Htoken. }
  simpl lstrip. rewrite Hd. by apply rstrip_keeps_prefix.
Qed.

Lemma lstrip_all_space (pad : string) : all_space pad = true → lstrip pad = "".
Proof.
  induction pad as [|c pad IH]; [done|]. simpl.
  intros H. apply andb_true_iff in H. destruct H as [-> H]. by apply IH.
Qed.

Lemma lstrip_pad (pad s : string) :
  all_space pad = true → lstrip (pad +:+ s) = lstrip s.
Proof.
  induction pad as [|c pad IH]; [done|].
  intros H. simpl in H. apply andb_true_iff in H. destruct H as [Hc H].
  rewrite append_cons. simpl. rewrite Hc. by apply IH.
Qed.

Lemma rstrip_all_space (pad : string) : all_space pad = true → rstrip pad = "".
Proof.
  induction pad as [|c pad IH]; [done|]. simpl.
  intros H. apply andb_true_iff in H. destruct H as [Hc H].
  by rewrite (IH H), Hc.
Qed.

Lemma rstrip_pad (s pad : string) :
  all_space pad = true → rstrip (s +:+ pad) = rstrip s.
Proof.
  intros Hpad. induction s as [|c s IH].
  - rewrite append_nil_l. by apply rstrip_all_space.
  - rewrite append_cons. simpl. by rewrite IH.
Qed.

Lemma strip_pad_r (s pad : string) :
  all_space pad = true → strip (s +:+ pad) = strip s.
Proof.
  intros Hpad. unfold strip. induction s as [|c s IH].
  - rewrite append_nil_l. by rewrite (lstrip_all_space pad Hpad).
  - rewrite append_cons. simpl. destruct (is_space c); [done|].
    rewrite <- append_cons. by apply rstrip_pad.
Qed.

(** Whitespace added at either end of a text is removed by [strip]. *)
Lemma strip_pad (before s after : string) :
  all_space before = true → all_space after = true →
  strip (before +:+ s +:+ after) = strip s.
Proof.
  intros Hb Ha. unfold strip at 1. rewrite (lstrip_pad before _ Hb).
  fold (strip (s +:+ after)). by apply strip_pad_r.
Qed.

(** ** The marker parser: layout of the blocks *)

Lemma ordered_from_weaken (blocks : list ConflictBlock) (n n' : nat) :
  n' ≤ n → ordered_from n blocks → ordered_from n' blocks.
Proof.
  destruct blocks as [|b blocks]; [done|]. simpl.
  intros Hn (Hstart & Hspan & Hrest). repeat split; [lia | done | done].
Qed.

Lemma ordered_from_each (blocks : list ConflictBlock) : ∀ n b,
  ordered_from n blocks → b ∈ blocks →
  n < start_line b ∧ start_line b + 2 ≤ end_line b.
Proof.
  induction blocks as [|b0 blocks IH]; intros n b Hord Hin.
  - by apply elem_of_nil in Hin.
  - simpl in Hord. destruct Hord as (Hstart & Hspan & Hrest).
    apply elem_of_cons in Hin. destruct Hin as [-> | Hin]; [done|].
    apply (IH n b); [|done].
    apply (ordered_from_weaken _ (end_line b0)); [lia | done].
Qed.

Lemma ordered_from_pairs (blocks : list ConflictBlock) : ∀ n i j bi bj,
  ordered_from n blocks → i < j →
  blocks !! i = Some bi → blocks !! j = Some bj →
  end_line bi < start_line bj.
Proof.
  induction blocks as [|b0 blocks IH]; intros n i j bi bj Hord Hij Hi Hj.
  - done.
  - simpl in Hord. destruct Hord as (Hstart & Hspan & Hrest).
    destruct j as [|j]; [lia|]. simpl in Hj.
    destruct i as [|i].
    + simpl in Hi. injection Hi as <-.
      apply (ordered_from_each blocks (end_line b0) bj Hrest).
      by apply list_elem_of_lookup_2 in Hj.
    + simpl in Hi. apply (IH (end_line b0) i j); (done || lia).
Qed.

Lemma ordered_from_count (limit : nat) (blocks : list ConflictBlock) : ∀ n,
  ordered_from n blocks →
  Forall (fun b => end_line b ≤ limit) blocks → n ≤ limit →
  n + 3 * length blocks ≤ limit.
Proof.
  induction blocks as [|b blocks IH]; intros n Hord Hend Hn.
  - simpl. lia.
  - simpl in Hord. destruct Hord as (Hstart & Hspan & Hrest).
    inversion Hend as [|? ? Hb Hblocks]; subst.
    specialize (IH (end_line b) Hrest Hblocks Hb). simpl. lia.
Qed.

(** The blocks the scan adds lie one after the other below the line it
    starts from, inside the text. *)
Lemma scan_layout (f : nat) : ∀ (before rest : list string)
    (acc : list ConflictBlock),
  length rest ≤ f →
  ∃ new, scan f (before ++ rest) (length before) acc = Ok (acc ++ new) ∧
         ordered_from (length before) new ∧
         Forall (fun b => end_line b ≤ length (before ++ rest)) new.
Proof.
  induction f as [|f IH]; intros before rest acc Hf.
  - destruct rest; simpl in Hf; [|lia].
    exists []. rewrite !app_nil_r. split; [by apply scan_past_end | done].
  - destruct rest as [|line rest].
    { exists []. rewrite !app_nil_r. split; [by apply scan_past_end | done]. }
    simpl in Hf.
    destruct (is_open line) eqn:Hopen.
    2:{ rewrite (scan_plain f _ _ line) by
          (done || by apply list_lookup_middle).
        rewrite app_snoc_middle, <- (length_snoc before line).
        destruct (IH (before ++ [line]) rest acc) as (new & Hscan & Hord & Hend);
          [lia|].
        exists new. split; [done|]. split; [|done].
        apply (ordered_from_weaken _ (length (before ++ [line]))); [|done].
        rewrite length_snoc. lia. }
    destruct (first_marker_split "=======" rest)
      as [Hnone | (mine & sep & rest2 & -> & Hmine & Hsep)].
    { exists []. rewrite app_nil_r. split; [|done].
      by apply scan_open_no_separator. }
    destruct (first_marker_split ">>>>>>>" rest2)
      as [Hnone | (yours & last & after & -> & Hyours & Hlast)].
    { exists []. rewrite app_nil_r. split; [|done].
      by apply scan_open_no_close. }
    rewrite scan_open_block by done.
    assert (Hsplit : before ++ line :: mine ++ sep :: yours ++ last :: after
      = (before ++ line :: mine ++ sep :: yours ++ [last]) ++ after).
    { rewrite <- !app_assoc. simpl. rewrite <- !app_assoc. simpl.
      by rewrite <- !app_assoc. }
    assert (Hlen : length (before ++ line :: mine ++ sep :: yours ++ [last])
      = length before + length mine + length yours + 3).
    { rewrite !length_app. simpl. rewrite !length_app. simpl.
      rewrite length_app. simpl. lia. }
    destruct (IH (before ++ line :: mine ++ sep :: yours ++ [last]) after
                (acc ++ [block_of before line mine yours last]))
      as (new & Hscan & Hord & Hend).
    { rewrite !length_app in Hf. simpl in Hf. rewrite length_app in Hf.
      simpl in Hf. lia. }
    rewrite <- Hsplit in Hscan, Hend. rewrite Hlen in Hord.
    exists (block_of before line mine yours last :: new). split.
    + rewrite Hscan. by rewrite <- app_assoc.
    + split.
      * simpl. repeat split; [lia | lia | done].
      * constructor; [|done]. simpl.
        rewrite Hsplit, length_app, Hlen. lia.
Qed.

Lemma parse_layout (content : string) :
  ∃ blocks, parse_conflict_markers content = Ok blocks ∧
            ordered_from 0 blocks ∧
            Forall (fun b => end_line b ≤ length (splitlines content)) blocks.
Proof.
  unfold parse_conflict_markers.
  destruct (scan_layout (length (splitlines content)) []
              (splitlines content) []) as (new & Hscan & Hord & Hend);
    [done|].
  exists new. by repeat split.
Qed.

(** X1. The blocks of a text come in file order and do not overlap: each
    block starts at line 1 or later, ends at least two lines after its
    start and inside the text, every block ends before the next one
    starts, and there are at most a third as many blocks as lines. *)
Theorem parse_blocks_in_order (content : string) :
  ∃ blocks,
    parse_conflict_markers content = Ok blocks ∧
    (∀ b, b ∈ blocks →
       1 ≤ start_line b ∧ start_line b + 2 ≤ end_line b ∧
       end_line b ≤ length (splitlines content)) ∧
    (∀ i j bi bj, i < j → blocks !! i = Some bi → blocks !! j = Some bj →
       end_line bi < start_line bj) ∧
    3 * length blocks ≤ length (splitlines content).
Proof.
  destruct (parse_layout content) as (blocks & Hparse & Hord & Hend).
  exists blocks. split; [done|]. split; [|split].
  - intros b Hb.
    destruct (ordered_from_each blocks 0 b Hord Hb) as [Hstart Hspan].
    rewrite Forall_forall in Hend. specialize (Hend b Hb). lia.
  - intros i j bi bj Hij Hi Hj.
    by apply (ordered_from_pairs blocks 0 i j bi bj).
  - pose proof (ordered_from_count _ blocks 0 Hord Hend) as Hcount. lia.
Qed.

Lemma join_nil : join "" [] = "".
Proof. reflexivity. Qed.

Lemma join_app (xs ys : list string) :
  join "" (xs ++ ys) = join "" xs +:+ join "" ys.
Proof.
  induction xs as [|x xs IH].
  - by rewrite join_nil, append_nil_l.
  - rewrite <- app_comm_cons, !join_cons, IH. by rewrite append_assoc.
Qed.

Lemma parse_delimited_each (content : string) (blocks : list ConflictBlock)
    (b : ConflictBlock) :
  parse_conflict_markers content = Ok blocks → b ∈ blocks →
  delimited (splitlines content) b.
Proof.
  intros Hparse Hb.
  destruct (parse_delimited content) as (blocks' & Hparse' & Hall).
  rewrite Hparse in Hparse'. injection Hparse' as <-.
  rewrite Forall_forall in Hall. by apply Hall.
Qed.

(** X2. The two labels of a block are the opening and the closing marker
    line without surrounding whitespace: [ours_label] begins with the
    opening token, [theirs_label] with the closing token, and neither has
    whitespace left to strip. *)
Theorem parse_labels (content : string) (blocks : list ConflictBlock)
    (b : ConflictBlock) :
  parse_conflict_markers content = Ok blocks → b ∈ blocks →
  startswith (ours_label b) "<<<<<<<" = true ∧
  startswith (theirs_label b) ">>>>>>>" = true ∧
  strip (ours_label b) = ours_label b ∧
  strip (theirs_label b) = theirs_label b.
Proof.
  intros Hparse Hb.
  destruct (parse_delimited_each content blocks b Hparse Hb)
    as (before & first & mine & sep & yours & last & after &
        _ & Hfirst & _ & Hlast & _ & _ & ->).
  simpl. repeat split.
  - by apply strip_keeps_prefix.
  - by apply strip_keeps_prefix.
  - apply strip_idempotent.
  - apply strip_idempotent.
Qed.

Lemma parse_labels_witness :
  startswith (ours_label single_triple_block) "<<<<<<<" = true ∧
  startswith (theirs_label single_triple_block) ">>>>>>>" = true ∧
  strip (ours_label single_triple_block) = ours_label single_triple_block ∧
  strip (theirs_label single_triple_block)
    = theirs_label single_triple_block.
Proof.
  apply (parse_labels single_triple_text [single_triple_block]).
  - vm_compute. reflexivity.
  - apply list_elem_of_here.
Defined.

(** X3. The two sides of a block are read off the text in place: the text
    is some prefix, the opening marker line, the [ours] text, the
    separator line, the [theirs] text, the closing marker line and some
    suffix, in that order and with nothing in between. *)
Theorem parse_block_in_place (content : string)
    (blocks : list ConflictBlock) (b : ConflictBlock) :
  parse_conflict_markers content = Ok blocks → b ∈ blocks →
  ∃ prefix first sep last suffix,
    content = prefix +:+ first +:+ ours b +:+ sep +:+ theirs b +:+ last
              +:+ suffix ∧
    is_open first = true ∧ is_separator sep = true ∧ is_close last = true ∧
    ours_label b = strip first ∧ theirs_label b = strip last.
Proof.
  intros Hparse Hb.
  destruct (parse_delimited_each content blocks b Hparse Hb)
    as (before & first & mine & sep & yours & last & after &
        Hlines & Hfirst & Hsep & Hlast & _ & _ & ->).
  exists (join "" before), first, sep, last, (join "" after).
  split; [|done]. simpl.
  rewrite <- (splitlines_join content), Hlines.
  rewrite join_app, join_cons, join_app, join_cons, join_app, join_cons.
  reflexivity.
Qed.

Lemma parse_block_in_place_witness :
  ∃ prefix first sep last suffix,
    single_triple_text
    = prefix +:+ first +:+ ours single_triple_block +:+ sep
      +:+ theirs single_triple_block +:+ last +:+ suffix ∧
    is_open first = true ∧ is_separator sep = true ∧ is_close last = true ∧
    ours_label single_triple_block = strip first ∧
    theirs_label single_triple_block = strip last.
Proof.
  apply (parse_block_in_place single_triple_text [single_triple_block]).
  - vm_compute. reflexivity.
  - apply list_elem_of_here.
Defined.

(** X4. A text in which no line begins with the opening token has no
    block, whatever separator and closing marker lines it holds. *)
Theorem parse_without_opening (content : string) :
  Forall (fun l => is_open l = false) (splitlines content) →
  parse_conflict_markers content = Ok [].
Proof.
  intros Hplain. unfold parse_conflict_markers.
  by apply (scan_all_plain _ [] (splitlines content) []).
Qed.

Lemma parse_without_opening_witness :
  parse_conflict_markers
    (unlines ["x = 0"; "======="; "y = 1"; ">>>>>>> feature"]) = Ok [].
Proof.
  apply parse_without_opening. vm_compute. repeat constructor.
Defined.

Lemma block_of_shift (extra before : list string) (first : string)
    (mine yours : list string) (last : string) :
  block_of (extra ++ before) first mine yours last
  = shift (length extra) (block_of before first mine yours last).
Proof.
  unfold block_of, shift. simpl. rewrite length_app. f_equal; lia.
Qed.

(** Two scans of the same lines, the second with [extra] lines put in
    front: the second adds the same blocks, moved down. *)
Lemma scan_shift (extra : list string) (f : nat) : ∀ (before rest : list string)
    (acc acc' : list ConflictBlock),
  length rest ≤ f →
  ∃ new,
    scan f (before ++ rest) (length before) acc = Ok (acc ++ new) ∧
    scan f ((extra ++ before) ++ rest) (length (extra ++ before)) acc'
    = Ok (acc' ++ (shift (length extra) <$> new)).
Proof.
  induction f as [|f IH]; intros before rest acc acc' Hf.
  - destruct rest; simpl in Hf; [|lia].
    exists []. rewrite fmap_nil, !app_nil_r.
    split; by apply scan_past_end.
  - destruct rest as [|line rest].
    { exists []. rewrite fmap_nil, !app_nil_r. split; by apply scan_past_end. }
    simpl in Hf.
    destruct (is_open line) eqn:Hopen.
    2:{ rewrite !(scan_plain f _ _ line) by
          (done || by apply list_lookup_middle).
        rewrite (app_snoc_middle before), (app_snoc_middle (extra ++ before)).
        rewrite <- (length_snoc before line),
                <- (length_snoc (extra ++ before) line).
        rewrite <- (app_assoc extra before [line]).
        apply IH. lia. }
    destruct (first_marker_split "=======" rest)
      as [Hnone | (mine & sep & rest2 & -> & Hmine & Hsep)].
    { exists []. rewrite fmap_nil, !app_nil_r.
      split; by apply scan_open_no_separator. }
    destruct (first_marker_split ">>>>>>>" rest2)
      as [Hnone | (yours & last & after & -> & Hyours & Hlast)].
    { exists []. rewrite fmap_nil, !app_nil_r.
      split; by apply scan_open_no_close. }
    rewrite !scan_open_block by done.
    assert (Hsplit : ∀ front,
      front ++ line :: mine ++ sep :: yours ++ last :: after
      = (front ++ line :: mine ++ sep :: yours ++ [last]) ++ after).
    { intros front. rewrite <- !app_assoc. simpl. rewrite <- !app_assoc.
      simpl. by rewrite <- !app_assoc. }
    destruct (IH (before ++ line :: mine ++ sep :: yours ++ [last]) after
                (acc ++ [block_of before line mine yours last])
                (acc' ++ [block_of (extra ++ before) line mine yours last]))
      as (new & Hscan & Hscan').
    { rewrite !length_app in Hf. simpl in Hf. rewrite length_app in Hf.
      simpl in Hf. lia. }
    exists (block_of before line mine yours last :: new).
    rewrite (app_assoc extra before _) in Hscan'.
    rewrite <- (Hsplit before) in Hscan.
    rewrite <- (Hsplit (extra ++ before)) in Hscan'.
    split.
    + rewrite Hscan. by rewrite <- app_assoc.
    + rewrite Hscan'. rewrite <- app_assoc. simpl.
      by rewrite block_of_shift.
Qed.

(** X5. Lines that do not open a block, put in front of a text, change
    nothing but the line numbers: the longer text has the same blocks,
    each moved down by the number of lines added. *)
Theorem parse_after_plain_lines (content content' : string)
    (extra : list string) :
  splitlines content' = extra ++ splitlines content →
  Forall (fun l => is_open l = false) extra →
  ∃ blocks,
    parse_conflict_markers content = Ok blocks ∧
    parse_conflict_markers content' = Ok (shift (length extra) <$> blocks).
Proof.
  intros Hlines Hextra.
  destruct (scan_shift extra (length (splitlines content)) []
              (splitlines content) [] []) as (new & Hscan & Hscan');
    [done|].
  exists new. split; [exact Hscan|].
  unfold parse_conflict_markers. rewrite Hlines, length_app.
  generalize (scan_skip_plain extra (length (splitlines content)) []
                (splitlines content) [] Hextra).
  cbn [app length]. intros ->.
  rewrite app_nil_r in Hscan'. exact Hscan'.
Qed.

Lemma parse_after_plain_lines_witness :
  ∃ blocks,
    parse_conflict_markers one_logic_text = Ok blocks ∧
    parse_conflict_markers
      ("import os" +:+ chr LF +:+ chr LF +:+ one_logic_text)
    = Ok (shift 2 <$> blocks).
Proof.
  apply (parse_after_plain_lines one_logic_text
           ("import os" +:+ chr LF +:+ chr LF +:+ one_logic_text)
           ["import os" +:+ chr LF; chr LF]).
  - vm_compute. reflexivity.
  - repeat constructor.
Defined.

(** ** The difficulty order *)

(** X6. [Difficulty.__lt__] is a strict total order on the four members,
    with EASY below MEDIUM below HARD below ESCALATE, and [max] under it
    returns one of its two arguments, not below either of them, whatever
    their order. *)
Theorem difficulty_order :
  (∀ a, Difficulty_lt a a = false) ∧
  (∀ a b c, Difficulty_lt a b = true → Difficulty_lt b c = true →
            Difficulty_lt a c = true) ∧
  (∀ a b, a ≠ b → Difficulty_lt a b = true ∨ Difficulty_lt b a = true) ∧
  (Difficulty_lt EASY MEDIUM = true ∧ Difficulty_lt MEDIUM HARD = true ∧
   Difficulty_lt HARD ESCALATE = true) ∧
  (∀ a b, at_least a (max a b) ∧ at_least b (max a b) ∧
          (max a b = a ∨ max a b = b) ∧ max a b = max b a).
Proof.
  split; [|split; [|split; [|split]]].
  - intros []; reflexivity.
  - intros [] [] []; vm_compute; congruence.
  - intros [] [] Hne; vm_compute; (by left) || (by right) || done.
  - repeat split.
  - intros [] []; vm_compute; repeat split; (by left) || (by right).
Qed.

Lemma difficulty_order_witness : Difficulty_lt EASY HARD = true.
Proof.
  apply (proj1 (proj2 difficulty_order) EASY MEDIUM HARD).
  - reflexivity.
  - reflexivity.
Defined.

(** ** The classifier: the verdict by the primary type *)

Lemma block_type_cases (marker : ConflictBlock) :
  block_type marker = IMPORT ∨ block_type marker = WHITESPACE ∨
  block_type marker = FUNCTION_SIGNATURE ∨ block_type marker = RENAME ∨
  block_type marker = LOGIC.
Proof.
  unfold block_type, classify_block.
  repeat match goal with |- context [if ?c then _ else _] => destruct c end;
    simpl; tauto.
Qed.

Lemma type_in_true (t : ConflictType) (ts : list ConflictType) :
  type_in t ts = true ↔ t ∈ ts.
Proof. unfold type_in. apply bool_decide_eq_true. Qed.

Lemma type_in_false (t : ConflictType) (ts : list ConflictType) :
  type_in t ts = false ↔ t ∉ ts.
Proof. unfold type_in. apply bool_decide_eq_false. Qed.

Ltac absurd_member :=
  match goal with
  | Hin : ?t ∈ ?ts, Hout : type_in ?t ?ts = false |- _ =>
      apply type_in_false in Hout; done
  end.

(** The selection loop returns a type of the list, and no type of the
    list comes before it in [priority]. *)
Lemma primary_type_most_severe (ts : list ConflictType) :
  ts ≠ [] →
  primary_type_of ts ∈ ts ∧
  ∀ t, t ∈ ts → t ≠ UNKNOWN → severity (primary_type_of ts) ≤ severity t.
Proof.
  intros Hne. split; [by apply primary_type_in|].
  destruct ts as [|first ts]; [done|].
  unfold primary_type_of, priority. cbn [find].
  destruct (type_in LOGIC _) eqn:H0; [intros; simpl; lia|].
  destruct (type_in FUNCTION_SIGNATURE _) eqn:H1.
  { intros t Ht _. destruct t; simpl; try lia; absurd_member. }
  destruct (type_in REFACTOR _) eqn:H2.
  { intros t Ht _. destruct t; simpl; try lia; absurd_member. }
  destruct (type_in RENAME _) eqn:H3.
  { intros t Ht _. destruct t; simpl; try lia; absurd_member. }
  destruct (type_in IMPORT _) eqn:H4.
  { intros t Ht _. destruct t; simpl; try lia; absurd_member. }
  destruct (type_in WHITESPACE _) eqn:H5.
  { intros t Ht _. destruct t; simpl; try lia; absurd_member. }
  intros t Ht Hunknown. exfalso. destruct t; try absurd_member. done.
Qed.

Lemma running_cons (m : ConflictBlock) (ms : list ConflictBlock)
    (d : Difficulty) :
  running (m :: ms) d = running ms (snd (classify_block m d)).
Proof. reflexivity. Qed.

Lemma running_hard (ms : list ConflictBlock) : running ms HARD = HARD.
Proof.
  induction ms as [|m ms IH]; [done|].
  rewrite running_cons, classify_block_difficulty.
  by destruct (block_type m).
Qed.

Lemma running_logic (ms : list ConflictBlock) : ∀ d,
  LOGIC ∈ (block_type <$> ms) → running ms d = HARD.
Proof.
  induction ms as [|m ms IH]; intros d Hin.
  - by apply elem_of_nil in Hin.
  - rewrite running_cons, classify_block_difficulty.
    rewrite fmap_cons in Hin. apply elem_of_cons in Hin.
    destruct Hin as [<- | Hin]; [apply running_hard | by apply IH].
Qed.

Lemma running_medium_fixed (ms : list ConflictBlock) :
  LOGIC ∉ (block_type <$> ms) → running ms MEDIUM = MEDIUM.
Proof.
  induction ms as [|m ms IH]; intros Hout; [done|].
  rewrite fmap_cons, not_elem_of_cons in Hout. destruct Hout as [Hm Hout].
  rewrite running_cons, classify_block_difficulty.
  destruct (block_type_cases m) as [E | [E | [E | [E | E]]]];
    rewrite E in *; by (apply IH || done).
Qed.

Lemma running_medium (ms : list ConflictBlock) :
  LOGIC ∉ (block_type <$> ms) →
  FUNCTION_SIGNATURE ∈ (block_type <$> ms) ∨ RENAME ∈ (block_type <$> ms) →
  running ms EASY = MEDIUM.
Proof.
  induction ms as [|m ms IH]; intros Hout Hin.
  - destruct Hin as [Hin | Hin]; by apply elem_of_nil in Hin.
  - rewrite fmap_cons in Hin, Hout. rewrite not_elem_of_cons in Hout.
    destruct Hout as [Hm Hout]. rewrite !elem_of_cons in Hin.
    rewrite running_cons, classify_block_difficulty.
    destruct (block_type_cases m) as [E | [E | [E | [E | E]]]];
      rewrite E in *; try done.
    + apply IH; [done|]. destruct Hin as [[? | ?] | [? | ?]]; auto; done.
    + apply IH; [done|]. destruct Hin as [[? | ?] | [? | ?]]; auto; done.
    + by apply running_medium_fixed.
    + by apply running_medium_fixed.
Qed.

Lemma block_types_known (ms : list ConflictBlock) (t : ConflictType) :
  t ∈ (block_type <$> ms) →
  t = IMPORT ∨ t = WHITESPACE ∨ t = FUNCTION_SIGNATURE ∨ t = RENAME ∨
  t = LOGIC.
Proof.
  rewrite list_elem_of_fmap. intros (m & -> & _). apply block_type_cases.
Qed.

(** After the loop the running maximum is the difficulty of the primary
    type, before the escalation by the number of blocks. *)
Lemma running_by_primary (ms : list ConflictBlock) :
  ms ≠ [] →
  let p := primary_type_of (block_type <$> ms) in
  (p = IMPORT ∨ p = WHITESPACE ∨ p = FUNCTION_SIGNATURE ∨ p = RENAME ∨
   p = LOGIC) ∧
  running ms EASY = difficulty_of p 0 ∧
  (forallb (fun t => type_in t mechanical) (block_type <$> ms)
   = bool_decide (p = IMPORT ∨ p = WHITESPACE)).
Proof.
  intros Hne p.
  assert (Hts : block_type <$> ms ≠ []) by (by destruct ms).
  destruct (primary_type_most_severe _ Hts) as [Hin Hmin]. fold p in Hin, Hmin.
  pose proof (block_types_known ms p Hin) as Hp.
  assert (Hlow : ∀ t, t ∈ (block_type <$> ms) → severity p ≤ severity t).
  { intros t Ht. apply Hmin; [done|].
    destruct (block_types_known ms t Ht) as [-> | [-> | [-> | [-> | ->]]]];
      done. }
  assert (Hmech : 4 ≤ severity p →
    Forall (fun m => block_type m = IMPORT ∨ block_type m = WHITESPACE) ms).
  { intros Hsev. apply Forall_forall. intros m Hm.
    assert (Ht : block_type m ∈ (block_type <$> ms))
      by (by apply list_elem_of_fmap_2).
    specialize (Hlow _ Ht).
    destruct (block_type_cases m) as [E | [E | [E | [E | E]]]];
      rewrite E in *; simpl in Hlow; (by auto) || lia. }
  split; [done|]. split.
  - destruct Hp as [E | [E | [E | [E | E]]]]; rewrite E in *; simpl.
    + apply running_mechanical, Hmech. simpl. lia.
    + apply running_mechanical, Hmech. simpl. lia.
    + apply running_medium; [|by left]. intros Hl.
      specialize (Hlow _ Hl). simpl in Hlow. lia.
    + apply running_medium; [|by right]. intros Hl.
      specialize (Hlow _ Hl). simpl in Hlow. lia.
    + by apply running_logic.
  - destruct (bool_decide (p = IMPORT ∨ p = WHITESPACE)) eqn:Hb.
    + apply bool_decide_eq_true in Hb. apply auto_resolvable_spec, Hmech.
      destruct Hb as [-> | ->]; simpl; lia.
    + apply bool_decide_eq_false in Hb. apply not_true_is_false.
      rewrite auto_resolvable_spec. intros Hall. apply Hb.
      apply list_elem_of_fmap in Hin. destruct Hin as (m & Hpm & Hm).
      rewrite Forall_forall in Hall. rewrite Hpm. by apply Hall.
Qed.

(** The verdict of a file with blocks, from the primary type and the
    number of blocks. *)
Lemma verdict_by_primary (markers : list ConflictBlock) :
  markers ≠ [] →
  let p := primary_type_of (block_type <$> markers) in
  categorize_markers markers =
    {| type := ConflictType_value p;
       difficulty := Difficulty_value (difficulty_of p (length markers));
       auto_resolvable := bool_decide (p = IMPORT ∨ p = WHITESPACE);
       reason := None;
       all_types := Some (ConflictType_value <$> (block_type <$> markers));
       num_conflicts := Some (length markers) |}.
Proof.
  intros Hne p. rewrite (categorize_markers_nonempty _ Hne). fold p.
  destruct (running_by_primary markers Hne) as (Hp & Hrun & Hauto).
  fold p in Hp, Hrun, Hauto. rewrite Hrun, Hauto.
  f_equal. f_equal.
  destruct Hp as [E | [E | [E | [E | E]]]]; rewrite E; reflexivity.
Qed.

(** X7. For a file with at least one parsed block the verdict has one of
    three shapes, fixed by the primary type: LOGIC with difficulty HARD
    (ESCALATE above 3 blocks) and not auto-resolvable; FUNCTION_SIGNATURE
    or RENAME with difficulty MEDIUM and not auto-resolvable; IMPORT or
    WHITESPACE with difficulty EASY and auto-resolvable.  REFACTOR and
    UNKNOWN are never reported for such a file. *)
Theorem verdict_shapes (read_file : string → ReadResult)
    (git_show : string → string → option string) (filepath : string) :
  let markers := parsed_blocks read_file filepath in
  let v := categorize_conflict read_file git_show filepath in
  markers ≠ [] →
  num_conflicts v = Some (length markers) ∧
  ((type v = "LOGIC" ∧
    difficulty v = (if 3 <? length markers then "ESCALATE" else "HARD") ∧
    auto_resolvable v = false) ∨
   ((type v = "FUNCTION_SIGNATURE" ∨ type v = "RENAME") ∧
    difficulty v = "MEDIUM" ∧ auto_resolvable v = false) ∨
   ((type v = "IMPORT" ∨ type v = "WHITESPACE") ∧
    difficulty v = "EASY" ∧ auto_resolvable v = true)).
Proof.
  intros markers v Hne.
  assert (Hv : v = categorize_markers markers) by reflexivity.
  rewrite Hv, (verdict_by_primary _ Hne). simpl.
  destruct (running_by_primary markers Hne) as (Hp & _ & _).
  split; [done|].
  destruct Hp as [E | [E | [E | [E | E]]]]; rewrite E; simpl.
  - right. right. auto.
  - right. right. auto.
  - right. left. auto.
  - right. left. auto.
  - left. by destruct (3 <? length markers).
Qed.

Lemma verdict_shapes_witness :
  num_conflicts (categorize_conflict (reads rename_text) no_git "a.py")
    = Some (length (parsed_blocks (reads rename_text) "a.py")) ∧
  ((type (categorize_conflict (reads rename_text) no_git "a.py") = "LOGIC" ∧
    difficulty (categorize_conflict (reads rename_text) no_git "a.py")
      = (if 3 <? length (parsed_blocks (reads rename_text) "a.py")
         then "ESCALATE" else "HARD") ∧
    auto_resolvable (categorize_conflict (reads rename_text) no_git "a.py")
      = false) ∨
   ((type (categorize_conflict (reads rename_text) no_git "a.py")
       = "FUNCTION_SIGNATURE" ∨
     type (categorize_conflict (reads rename_text) no_git "a.py")
       = "RENAME") ∧
    difficulty (categorize_conflict (reads rename_text) no_git "a.py")
      = "MEDIUM" ∧
    auto_resolvable (categorize_conflict (reads rename_text) no_git "a.py")
      = false) ∨
   ((type (categorize_conflict (reads rename_text) no_git "a.py")
       = "IMPORT" ∨
     type (categorize_conflict (reads rename_text) no_git "a.py")
       = "WHITESPACE") ∧
    difficulty (categorize_conflict (reads rename_text) no_git "a.py")
      = "EASY" ∧
    auto_resolvable (categorize_conflict (reads rename_text) no_git "a.py")
      = true)).
Proof.
  apply (verdict_shapes (reads rename_text) no_git "a.py").
  replace (parsed_blocks (reads rename_text) "a.py") with [rename_block]
    by (vm_compute; reflexivity).
  discriminate.
Defined.

(** X8. The reported type of a file with blocks is the type of one of its
    blocks, and no block has a type that comes earlier in the priority
    list LOGIC, FUNCTION_SIGNATURE, REFACTOR, RENAME, IMPORT,
    WHITESPACE. *)
Theorem primary_type_is_most_severe (read_file : string → ReadResult)
    (git_show : string → string → option string) (filepath : string) :
  let markers := parsed_blocks read_file filepath in
  let v := categorize_conflict read_file git_show filepath in
  markers ≠ [] →
  (∀ t, t ≠ UNKNOWN → priority !! severity t = Some t) ∧
  ∃ m, m ∈ markers ∧ type v = ConflictType_value (block_type m) ∧
       ∀ m', m' ∈ markers → severity (block_type m) ≤ severity (block_type m').
Proof.
  intros markers v Hne. split; [by intros []|].
  assert (Hv : v = categorize_markers markers) by reflexivity.
  rewrite Hv, (verdict_by_primary _ Hne). simpl.
  assert (Hts : block_type <$> markers ≠ []) by (by destruct markers).
  destruct (primary_type_most_severe _ Hts) as [Hin Hmin].
  apply list_elem_of_fmap in Hin. destruct Hin as (m & Hpm & Hm).
  exists m. split; [done|]. split; [by rewrite Hpm|].
  intros m' Hm'. rewrite <- Hpm. apply Hmin.
  - by apply list_elem_of_fmap_2.
  - destruct (block_type_cases m') as [E | [E | [E | [E | E]]]];
      rewrite E; done.
Qed.

Lemma primary_type_is_most_severe_witness :
  ∃ m, m ∈ parsed_blocks (reads rename_text) "a.py" ∧
       type (categorize_conflict (reads rename_text) no_git "a.py")
         = ConflictType_value (block_type m) ∧
       ∀ m', m' ∈ parsed_blocks (reads rename_text) "a.py" →
             severity (block_type m) ≤ severity (block_type m').
Proof.
  apply (primary_type_is_most_severe (reads rename_text) no_git "a.py").
  replace (parsed_blocks (reads rename_text) "a.py") with [rename_block]
    by (vm_compute; reflexivity).
  discriminate.
Defined.

Lemma severity_inj (a b : ConflictType) : severity a = severity b → a = b.
Proof. destruct a, b; simpl; congruence. Qed.

Lemma primary_type_permutation (ms ms' : list ConflictBlock) :
  ms ≡ₚ ms' → ms ≠ [] →
  primary_type_of (block_type <$> ms) = primary_type_of (block_type <$> ms').
Proof.
  intros Hperm Hne.
  assert (Hne' : ms' ≠ []).
  { intros ->. by apply Permutation_nil_r in Hperm. }
  assert (Hts : block_type <$> ms ≠ []) by (by destruct ms).
  assert (Hts' : block_type <$> ms' ≠ []) by (by destruct ms').
  destruct (primary_type_most_severe _ Hts) as [Hin Hmin].
  destruct (primary_type_most_severe _ Hts') as [Hin' Hmin'].
  assert (Hknown : ∀ (l : list ConflictBlock) t,
    t ∈ (block_type <$> l) → t ≠ UNKNOWN).
  { intros l t Ht.
    destruct (block_types_known l t Ht) as [-> | [-> | [-> | [-> | ->]]]];
      done. }
  apply severity_inj. apply Nat.le_antisymm.
  - apply Hmin; [|by apply (Hknown ms')]. by rewrite Hperm.
  - apply Hmin'; [|by apply (Hknown ms)]. by rewrite <- Hperm.
Qed.

(** X9. The order of the blocks does not matter to the verdict: two lists
    with the same blocks in another order get the same type, difficulty,
    auto-resolvability and count, and the same per-block types up to
    order. *)
Theorem verdict_ignores_block_order (markers markers' : list ConflictBlock) :
  markers ≡ₚ markers' →
  type (categorize_markers markers) = type (categorize_markers markers') ∧
  difficulty (categorize_markers markers)
    = difficulty (categorize_markers markers') ∧
  auto_resolvable (categorize_markers markers)
    = auto_resolvable (categorize_markers markers') ∧
  num_conflicts (categorize_markers markers)
    = num_conflicts (categorize_markers markers') ∧
  default [] (all_types (categorize_markers markers))
    ≡ₚ default [] (all_types (categorize_markers markers')).
Proof.
  intros Hperm.
  destruct (decide (markers = [])) as [-> | Hne].
  { apply Permutation_nil_l in Hperm. by subst. }
  assert (Hne' : markers' ≠ []).
  { intros ->. by apply Permutation_nil_r in Hperm. }
  rewrite (verdict_by_primary _ Hne), (verdict_by_primary _ Hne'). simpl.
  rewrite (primary_type_permutation _ _ Hperm Hne).
  rewrite (Permutation_length Hperm).
  repeat split; try reflexivity. by rewrite Hperm.
Qed.

Lemma verdict_ignores_block_order_witness :
  type (categorize_markers [rename_block; split_import_block])
    = type (categorize_markers [split_import_block; rename_block]) ∧
  difficulty (categorize_markers [rename_block; split_import_block])
    = difficulty (categorize_markers [split_import_block; rename_block]) ∧
  auto_resolvable (categorize_markers [rename_block; split_import_block])
    = auto_resolvable (categorize_markers [split_import_block; rename_block])
  ∧
  num_conflicts (categorize_markers [rename_block; split_import_block])
    = num_conflicts (categorize_markers [split_import_block; rename_block])
  ∧
  default [] (all_types (categorize_markers
                           [rename_block; split_import_block]))
    ≡ₚ default [] (all_types (categorize_markers
                                [split_import_block; rename_block])).
Proof.
  apply (verdict_ignores_block_order [rename_block; split_import_block]
           [split_import_block; rename_block]).
  apply perm_swap.
Defined.

(** X10. The verdict is the UNKNOWN one (difficulty MEDIUM, not
    auto-resolvable, with the reason) exactly when the file gives no
    block; that is the case when the file cannot be read and when none of
    its lines begins with the opening token. *)
Theorem unknown_verdict_iff_no_block (read_file : string → ReadResult)
    (git_show : string → string → option string) (filepath : string) :
  let v := categorize_conflict read_file git_show filepath in
  (v = unknown_verdict ↔ parsed_blocks read_file filepath = []) ∧
  (∀ message, read_file filepath = ReadError message → v = unknown_verdict) ∧
  (∀ content, read_file filepath = Content content →
     Forall (fun l => is_open l = false) (splitlines content) →
     v = unknown_verdict).
Proof.
  intros v.
  assert (Hv : v = categorize_markers (parsed_blocks read_file filepath))
    by reflexivity.
  assert (Hnil : parsed_blocks read_file filepath = [] → v = unknown_verdict).
  { intros Hnil. by rewrite Hv, Hnil. }
  split; [|split].
  - split; [|exact Hnil]. intros Hunknown.
    destruct (decide (parsed_blocks read_file filepath = [])) as [|Hne];
      [done|].
    rewrite Hv, (verdict_by_primary _ Hne) in Hunknown. discriminate Hunknown.
  - intros message Hread. apply Hnil.
    unfold parsed_blocks, extract_three_way. by rewrite Hread.
  - intros content Hread Hplain. apply Hnil.
    unfold parsed_blocks, extract_three_way. rewrite Hread. simpl.
    unfold parse_conflict_markers.
    by rewrite (scan_all_plain _ [] (splitlines content) [] Hplain).
Qed.

Lemma unknown_verdict_iff_no_block_witness :
  categorize_conflict unreadable no_git "missing.py" = unknown_verdict.
Proof.
  apply (proj1 (proj2 (unknown_verdict_iff_no_block unreadable no_git
                         "missing.py"))
           "[Errno 2] No such file or directory").
  reflexivity.
Defined.

(** ** The classifier: what a block's type depends on *)

(** X11. Whitespace at the ends of a side, the line numbers and the
    labels do not matter to the classification: a block whose sides are
    those of another with whitespace added in front or behind gets the
    same type and leaves the same running difficulty. *)
Theorem classification_ignores_padding (marker padded : ConflictBlock)
    (before_ours after_ours before_theirs after_theirs : string)
    (max_difficulty : Difficulty) :
  all_space before_ours = true → all_space after_ours = true →
  all_space before_theirs = true → all_space after_theirs = true →
  ours padded = before_ours +:+ ours marker +:+ after_ours →
  theirs padded = before_theirs +:+ theirs marker +:+ after_theirs →
  classify_block padded max_difficulty = classify_block marker max_difficulty.
Proof.
  intros Hbo Hao Hbt Hat Hours Htheirs. unfold classify_block.
  by rewrite Hours, Htheirs, !strip_pad.
Qed.

Lemma classification_ignores_padding_witness :
  classify_block
    (mkBlock 10 20 ("  total = old_name + 1" +:+ chr LF)
       (chr TAB +:+ "total = new_name + 1" +:+ chr LF +:+ chr LF) "" "")
    EASY
  = classify_block
      (mkBlock 1 5 "total = old_name + 1" "total = new_name + 1"
         "<<<<<<< HEAD" ">>>>>>> feature") EASY.
Proof.
  apply (classification_ignores_padding
           (mkBlock 1 5 "total = old_name + 1" "total = new_name + 1"
              "<<<<<<< HEAD" ">>>>>>> feature")
           (mkBlock 10 20 ("  total = old_name + 1" +:+ chr LF)
              (chr TAB +:+ "total = new_name + 1" +:+ chr LF +:+ chr LF)
              "" "")
           "  " (chr LF) (chr TAB) (chr LF +:+ chr LF) EASY);
    reflexivity.
Defined.

(** X12. A block is classified WHITESPACE exactly when no import
    substring is matched and its stripped sides are equal once spaces,
    tabs and newlines are removed; so a block whose two sides are the same
    text is always IMPORT or WHITESPACE. *)
Theorem whitespace_rule :
  (∀ (marker : ConflictBlock) (max_difficulty : Difficulty),
     fst (classify_block marker max_difficulty) = WHITESPACE ↔
     any_in import_keywords (strip (ours marker) +:+ strip (theirs marker))
       = false ∧
     remove_blanks (strip (ours marker))
       = remove_blanks (strip (theirs marker))) ∧
  (∀ (marker : ConflictBlock) (max_difficulty : Difficulty),
     ours marker = theirs marker →
     classify_block marker max_difficulty = (IMPORT, max_difficulty) ∨
     classify_block marker max_difficulty = (WHITESPACE, max_difficulty)).
Proof.
  split.
  - intros marker d. unfold classify_block.
    destruct (any_in import_keywords _) eqn:Himport.
    { simpl. split; [discriminate | intros [? _]; discriminate]. }
    destruct (String.eqb _ _) eqn:Hblank.
    { apply String.eqb_eq in Hblank. by split. }
    apply String.eqb_neq in Hblank.
    repeat match goal with |- context [if ?c then _ else _] => destruct c end;
      simpl; (split; [discriminate | intros [_ ?]; done]).
  - intros marker d Hsame. unfold classify_block. rewrite Hsame.
    destruct (any_in import_keywords _); [by left|].
    rewrite String.eqb_refl. by right.
Qed.

Lemma whitespace_rule_witness :
  classify_block (mkBlock 1 5 "x = 1" "x = 1" "<<<<<<< a" ">>>>>>> b") HARD
    = (IMPORT, HARD) ∨
  classify_block (mkBlock 1 5 "x = 1" "x = 1" "<<<<<<< a" ">>>>>>> b") HARD
    = (WHITESPACE, HARD).
Proof.
  apply (proj2 whitespace_rule
           (mkBlock 1 5 "x = 1" "x = 1" "<<<<<<< a" ">>>>>>> b") HARD).
  reflexivity.
Defined.

(** X13. A block whose ours side holds no word (an empty side, or only
    punctuation and whitespace) is never classified RENAME. *)
Theorem no_rename_without_words (marker : ConflictBlock)
    (max_difficulty : Difficulty) :
  findall_word (ours marker) = [] →
  fst (classify_block marker max_difficulty) ≠ RENAME.
Proof.
  intros Hwords. unfold classify_block.
  assert (Hrename : rename_detector (strip (ours marker))
                      (strip (theirs marker)) = false).
  { apply not_true_is_false. intros Hr.
    apply rename_detector_spec in Hr. simpl in Hr.
    destruct Hr as (_ & _ & Hne). apply Hne.
    by rewrite findall_word_strip, Hwords. }
  rewrite Hrename.
  repeat match goal with |- context [if ?c then _ else _] => destruct c end;
    simpl; discriminate.
Qed.

Lemma no_rename_without_words_witness :
  fst (classify_block
         (mkBlock 1 4 "" ("retry()" +:+ chr LF) "<<<<<<< a" ">>>>>>> b")
         EASY) ≠ RENAME.
Proof.
  apply (no_rename_without_words
           (mkBlock 1 4 "" ("retry()" +:+ chr LF) "<<<<<<< a" ">>>>>>> b")
           EASY).
  reflexivity.
Defined.

(** ** The validation gate: the report for a file *)

Ltac table_case :=
  repeat split; intros; destruct_and?; destruct_or?;
  repeat match goal with H : ∃ _, _ |- _ => destruct H end;
  try done; try congruence; repeat split; eauto.

(** X14. For a file that can be read, [syntax_valid] is true exactly when
    the text holds no marker token and either the language is not python
    or the syntax checker accepted the text; it is left unset exactly when
    the text holds no marker token, the language is python and the checker
    failed with an error other than a syntax error; and a report with
    [syntax_valid] true has no semantic error. *)
Theorem syntax_valid_table (read_file : string → ReadResult)
    (ast_parse : string → ParseOutcome) (suffix_lower : string → string)
    (filepath : string) (hint : option string) (content : string) :
  read_file filepath = Content content →
  let report :=
    validate_file read_file ast_parse suffix_lower filepath hint in
  (syntax_valid report = Some true ↔
   any_in marker_tokens content = false ∧
   (language report ≠ "python" ∨ ast_parse content = Parsed)) ∧
  (syntax_valid report = None ↔
   any_in marker_tokens content = false ∧ language report = "python" ∧
   ∃ message, ast_parse content = OtherError message) ∧
  (syntax_valid report = Some true → semantic_errors report = []).
Proof.
  intros Hread report. unfold report, validate_file. rewrite Hread.
  set (lang := match hint with
               | Some l => l
               | None => get lang_map (suffix_lower filepath) "unknown"
               end).
  destruct (String.eqb lang "python") eqn:Hlang.
  - apply String.eqb_eq in Hlang.
    destruct (ast_parse content) as [|lineno msg|message];
      destruct (any_in marker_tokens content); simpl; table_case.
  - apply String.eqb_neq in Hlang.
    destruct (any_in marker_tokens content); simpl; table_case.
Qed.

Lemma syntax_valid_table_witness :
  semantic_errors
    (validate_file (reads "x = 1") (fun _ => Parsed) (fun _ => ".py")
       "a.py" None) = [].
Proof.
  apply (proj2 (proj2 (syntax_valid_table (reads "x = 1") (fun _ => Parsed)
                         (fun _ => ".py") "a.py" None "x = 1" eq_refl))).
  reflexivity.
Defined.

(** X15. For a file that cannot be read the report has no semantic error
    and two warnings; [syntax_valid] is left unset when the language is
    python and is true for every other language. *)
Theorem unreadable_file_report (read_file : string → ReadResult)
    (ast_parse : string → ParseOutcome) (suffix_lower : string → string)
    (filepath : string) (hint : option string) (message : string) :
  read_file filepath = ReadError message →
  let report :=
    validate_file read_file ast_parse suffix_lower filepath hint in
  semantic_errors report = [] ∧ length (warnings report) = 2 ∧
  syntax_valid report
  = (if String.eqb (language report) "python" then None else Some true).
Proof.
  intros Hread report. unfold report, validate_file. rewrite Hread.
  set (lang := match hint with
               | Some l => l
               | None => get lang_map (suffix_lower filepath) "unknown"
               end).
  destruct (String.eqb lang "python") eqn:Hlang; simpl; by rewrite Hlang.
Qed.

Lemma unreadable_file_report_witness :
  semantic_errors
    (validate_file unreadable (fun _ => Parsed) (fun _ => ".go") "a.go" None)
    = [] ∧
  length (warnings
    (validate_file unreadable (fun _ => Parsed) (fun _ => ".go") "a.go" None))
    = 2 ∧
  syntax_valid
    (validate_file unreadable (fun _ => Parsed) (fun _ => ".go") "a.go" None)
  = (if String.eqb
          (language (validate_file unreadable (fun _ => Parsed)
                       (fun _ => ".go") "a.go" None)) "python"
     then None else Some true).
Proof.
  apply (unreadable_file_report unreadable (fun _ => Parsed) (fun _ => ".go")
           "a.go" None "[Errno 2] No such file or directory").
  reflexivity.
Defined.

(** ** The operations on the version-control tool *)

Lemma fold_conflict_lines (f : string → string) (lines : list string) :
  ∀ acc,
  fold_left
    (fun conflicts line =>
       if startswith line "UU " || startswith line "AA "
       then conflicts ++ [f line] else conflicts) lines acc
  = acc ++ (f <$> List.filter is_conflict_line lines).
Proof.
  induction lines as [|line lines IH]; intros acc; simpl.
  - by rewrite app_nil_r.
  - rewrite IH. unfold is_conflict_line at 2.
    destruct (startswith line "UU " || startswith line "AA "); [|done].
    by rewrite <- app_assoc.
Qed.

Lemma filter_length_bound (p : string → bool) (lines : list string) :
  length (List.filter p lines) ≤ length lines.
Proof.
  induction lines as [|line lines IH]; simpl; [done|].
  destruct (p line); simpl; lia.
Qed.

(** X16. When [git status --porcelain] exits with code 0, the conflicted
    files are the lines that begin with [UU ] or [AA ], in order, each
    without its first three characters and stripped; every returned path
    has no whitespace left at its ends, and there are no more paths than
    lines. *)
Theorem list_conflicts_paths (subprocess_run : list string → ProcessOutcome)
    (out err : string) :
  subprocess_run ["git"; "status"; "--porcelain"] = Exited 0 out err →
  ∃ paths,
    list_conflicts subprocess_run = Returned paths ∧
    paths = (fun line => strip (slice_from 3 line))
              <$> List.filter is_conflict_line (splitlines_noends out) ∧
    Forall (fun path => strip path = path) paths ∧
    length paths ≤ length (splitlines_noends out).
Proof.
  intros Hrun. unfold list_conflicts, run_git_command. rewrite Hrun.
  change (0 =? 0)%Z with true. cbn [negb andb stdout].
  eexists. split; [reflexivity|].
  assert (Hpaths :
    (if String.eqb out "" then []
     else fold_left
            (fun conflicts line =>
               if startswith line "UU " || startswith line "AA "
               then conflicts ++ [strip (slice_from 3 line)] else conflicts)
            (splitlines_noends out) [])
    = (fun line => strip (slice_from 3 line))
        <$> List.filter is_conflict_line (splitlines_noends out)).
  { destruct (String.eqb out "") eqn:Hout.
    - apply String.eqb_eq in Hout. by subst.
    - by rewrite (fold_conflict_lines (fun line => strip (slice_from 3 line))). }
  rewrite Hpaths. split; [done|]. split.
  - apply Forall_fmap, Forall_forall. intros line _. simpl.
    apply strip_idempotent.
  - rewrite length_fmap. apply filter_length_bound.
Qed.

Lemma list_conflicts_paths_witness :
  ∃ paths,
    list_conflicts
      (fun _ => Exited 0
         ("UU src/app.py" +:+ chr LF +:+ " M README.md" +:+ chr LF +:+
          "AA  docs/new file.md " +:+ chr LF) "")
    = Returned paths ∧
    paths = (fun line => strip (slice_from 3 line))
              <$> List.filter is_conflict_line
                    (splitlines_noends
                       ("UU src/app.py" +:+ chr LF +:+ " M README.md" +:+
                        chr LF +:+ "AA  docs/new file.md " +:+ chr LF)) ∧
    Forall (fun path => strip path = path) paths ∧
    length paths
    ≤ length (splitlines_noends
                ("UU src/app.py" +:+ chr LF +:+ " M README.md" +:+ chr LF +:+
                 "AA  docs/new file.md " +:+ chr LF)).
Proof.
  apply (list_conflicts_paths
           (fun _ => Exited 0
              ("UU src/app.py" +:+ chr LF +:+ " M README.md" +:+ chr LF +:+
               "AA  docs/new file.md " +:+ chr LF) "")
           ("UU src/app.py" +:+ chr LF +:+ " M README.md" +:+ chr LF +:+
            "AA  docs/new file.md " +:+ chr LF) "").
  reflexivity.
Defined.

(** X17. [list_conflicts] returns a list exactly when the status command
    ran and exited with code 0; a non-zero code is raised as
    [CalledProcessError] with that code, and a command that cannot run
    raises as well. *)
Theorem list_conflicts_raises (subprocess_run : list string → ProcessOutcome) :
  ((∃ paths, list_conflicts subprocess_run = Returned paths) ↔
   ∃ out err,
     subprocess_run ["git"; "status"; "--porcelain"] = Exited 0 out err) ∧
  (∀ code out err,
     subprocess_run ["git"; "status"; "--porcelain"] = Exited code out err →
     code ≠ 0%Z →
     list_conflicts subprocess_run = Raised (CalledProcessError code err)).
Proof.
  unfold list_conflicts, run_git_command. split.
  - destruct (subprocess_run _) as [code out err | message]; simpl.
    + destruct (Z.eqb_spec code 0) as [-> | Hcode]; simpl.
      * split; [by exists out, err | intros _; by eexists].
      * split; [by intros [? ?]|]. intros (out' & err' & Heq).
        injection Heq as -> _ _. done.
    + split; [by intros [? ?] | by intros (? & ? & ?)].
  - intros code out err -> Hcode. simpl.
    destruct (Z.eqb_spec code 0); [done|]. reflexivity.
Qed.

Lemma list_conflicts_raises_witness :
  list_conflicts (fun _ => Exited 128 "" "fatal: not a git repository")
  = Raised (CalledProcessError 128 "fatal: not a git repository").
Proof.
  apply (proj2 (list_conflicts_raises
                  (fun _ => Exited 128 "" "fatal: not a git repository"))
           128%Z "" "fatal: not a git repository").
  - reflexivity.
  - discriminate.
Defined.

(** X18. In the result of [extract_three_way], the base, ours and theirs
    entries are the output of [git show] for stages 1, 2 and 3, each
    present exactly when that command exited with code 0; the markers are
    the blocks parsed from the file, whatever the tool does. *)
Theorem three_way_stages (subprocess_run : list string → ProcessOutcome)
    (read_file : string → ReadResult) (filepath : string) :
  let data :=
    extract_three_way read_file (git_show subprocess_run) filepath in
  (∀ blob, tw_base data = Some blob ↔
     ∃ err, subprocess_run ["git"; "show"; ":1:" +:+ filepath]
            = Exited 0 blob err) ∧
  (∀ blob, tw_ours data = Some blob ↔
     ∃ err, subprocess_run ["git"; "show"; ":2:" +:+ filepath]
            = Exited 0 blob err) ∧
  (∀ blob, tw_theirs data = Some blob ↔
     ∃ err, subprocess_run ["git"; "show"; ":3:" +:+ filepath]
            = Exited 0 blob err) ∧
  tw_markers data = parsed_blocks read_file filepath ∧
  tw_filepath data = filepath.
Proof.
  intros data.
  assert (Hstage : ∀ stage blob,
    git_show subprocess_run stage filepath = Some blob ↔
    ∃ err, subprocess_run ["git"; "show"; ":" +:+ stage +:+ ":" +:+ filepath]
           = Exited 0 blob err).
  { intros stage blob. unfold git_show, run_git_command.
    destruct (subprocess_run _) as [code out err | message]; simpl.
    - destruct (Z.eqb_spec code 0) as [-> | Hcode].
      + split.
        * intros [= ->]. by exists err.
        * intros (err' & [= -> _]). done.
      + split; [done|]. intros (err' & [= -> _ _]). done.
    - split; [done | by intros (? & ?)]. }
  repeat split; try apply (Hstage "1"); try apply (Hstage "2");
    try apply (Hstage "3").
Qed.

Lemma stripped_lines_stripped (text : string) :
  Forall (fun line => strip line = line) (stripped_lines text).
Proof.
  unfold stripped_lines. apply Forall_fmap, Forall_forall.
  intros line _. simpl. apply strip_idempotent.
Qed.

Lemma log_commits_stripped (subprocess_run : list string → ProcessOutcome)
    (range filepath : string) (commits : list string) :
  log_commits subprocess_run range filepath [] = Returned commits →
  Forall (fun line => strip line = line) commits.
Proof.
  unfold log_commits. destruct (run_git_command _ _ _) as [result | e];
    [|discriminate].
  destruct (String.eqb (stdout result) ""); intros [= <-].
  - constructor.
  - apply stripped_lines_stripped.
Qed.

Lemma strip_all_space (text : string) : all_space text = true → strip text = "".
Proof. intros H. unfold strip. by rewrite (lstrip_all_space text H). Qed.

(** X19. [get_context] reports commits only when the merge base was found
    and is not empty (the merge-base command exited with code 0 and
    printed more than whitespace); every commit summary it reports has no
    whitespace left at its ends; and the dependencies and the file path
    are reported whatever the tool does. *)
Theorem context_commits (subprocess_run : list string → ProcessOutcome)
    (read_file : string → ReadResult)
    (re_findall : string → bool → string → list string)
    (filepath : string) :
  let ctx := get_context subprocess_run read_file re_findall filepath in
  (ours_commits ctx ≠ [] ∨ theirs_commits ctx ≠ [] →
   ∃ out err,
     subprocess_run ["git"; "merge-base"; "HEAD"; "MERGE_HEAD"]
       = Exited 0 out err ∧
     strip out ≠ "" ∧ merge_base ctx = Some (strip out)) ∧
  Forall (fun line => strip line = line) (ours_commits ctx) ∧
  Forall (fun line => strip line = line) (theirs_commits ctx) ∧
  dependencies ctx = analyze_dependencies read_file re_findall filepath ∧
  ctx_filepath ctx = filepath.
Proof.
  intros ctx. unfold ctx, get_context.
  unfold run_git_command.
  destruct (subprocess_run ["git"; "merge-base"; "HEAD"; "MERGE_HEAD"])
    as [code out err | message].
  2:{ simpl. repeat split; try done. by intros [? | ?]. }
  destruct (Z.eqb_spec code 0) as [-> | Hcode].
  2:{ simpl. repeat split; try done. by intros [? | ?]. }
  cbn [negb andb stdout].
  destruct (String.eqb (strip out) "") eqn:Hbase.
  { simpl. repeat split; try done. by intros [? | ?]. }
  apply String.eqb_neq in Hbase.
  destruct (log_commits subprocess_run (strip out +:+ "..HEAD") filepath [])
    as [mine | e] eqn:Hmine.
  2:{ simpl. repeat split; try done. by intros [? | ?]. }
  pose proof (log_commits_stripped _ _ _ _ Hmine) as Hmine'.
  destruct (log_commits subprocess_run (strip out +:+ "..MERGE_HEAD")
              filepath []) as [yours | e] eqn:Hyours.
  - pose proof (log_commits_stripped _ _ _ _ Hyours) as Hyours'.
    simpl. repeat split; try done. intros _. by exists out, err.
  - simpl. repeat split; try done. intros _. by exists out, err.
Qed.

Lemma context_commits_witness :
  ∃ out err,
    (fun args : list string =>
       match args with
       | [_; "merge-base"; _; _] => Exited 0 ("4f2a9c1" +:+ chr LF) ""
       | _ => Exited 0 ("9d1e0b7 fix retry count" +:+ chr LF) ""
       end) ["git"; "merge-base"; "HEAD"; "MERGE_HEAD"]
      = Exited 0 out err ∧
    strip out ≠ "" ∧
    merge_base
      (get_context
         (fun args : list string =>
            match args with
            | [_; "merge-base"; _; _] => Exited 0 ("4f2a9c1" +:+ chr LF) ""
            | _ => Exited 0 ("9d1e0b7 fix retry count" +:+ chr LF) ""
            end) unreadable (fun _ _ _ => []) "config.py")
    = Some (strip out).
Proof.
  apply (proj1 (context_commits
           (fun args : list string =>
              match args with
              | [_; "merge-base"; _; _] => Exited 0 ("4f2a9c1" +:+ chr LF) ""
              | _ => Exited 0 ("9d1e0b7 fix retry count" +:+ chr LF) ""
              end) unreadable (fun _ _ _ => []) "config.py")).
  left. vm_compute. discriminate.
Defined.

(** X20. Without a usable merge base [get_context] reports no commit:
    when the merge-base command cannot run or exits with a non-zero code
    the merge base is [None]; when it prints only whitespace the merge
    base is the empty string; and when the log of our side cannot run,
    the log of their side is not asked for and both lists are empty. *)
Theorem context_without_merge_base
    (subprocess_run : list string → ProcessOutcome)
    (read_file : string → ReadResult)
    (re_findall : string → bool → string → list string)
    (filepath : string) :
  let ctx := get_context subprocess_run read_file re_findall filepath in
  let merge_base_run :=
    subprocess_run ["git"; "merge-base"; "HEAD"; "MERGE_HEAD"] in
  ((∃ message, merge_base_run = Failed message) ∨
   (∃ code out err, merge_base_run = Exited code out err ∧ code ≠ 0%Z) →
   merge_base ctx = None ∧ ours_commits ctx = [] ∧ theirs_commits ctx = []) ∧
  (∀ out err, merge_base_run = Exited 0 out err → all_space out = true →
   merge_base ctx = Some "" ∧ ours_commits ctx = [] ∧
   theirs_commits ctx = []) ∧
  (∀ out err message, merge_base_run = Exited 0 out err →
   subprocess_run ["git"; "log"; "--oneline"; "--no-merges";
                   strip out +:+ "..HEAD"; "--"; filepath] = Failed message →
   ours_commits ctx = [] ∧ theirs_commits ctx = []).
Proof.
  intros ctx merge_base_run. unfold ctx, get_context, merge_base_run.
  split; [|split].
  - intros [(message & Hrun) | (code & out & err & Hrun & Hcode)];
      unfold run_git_command; rewrite Hrun; [done|].
    destruct (Z.eqb_spec code 0); done.
  - intros out err Hrun Hspace. unfold run_git_command. rewrite Hrun.
    change (0 =? 0)%Z with true. cbn [negb andb stdout].
    by rewrite (strip_all_space out Hspace).
  - intros out err message Hrun Hlog. unfold run_git_command.
    rewrite Hrun. change (0 =? 0)%Z with true. cbn [negb andb stdout].
    destruct (String.eqb (strip out) ""); [done|].
    unfold log_commits, run_git_command. by rewrite Hlog.
Qed.

Lemma context_without_merge_base_witness :
  merge_base
    (get_context (fun _ => Exited 128 "" "fatal: not a git repository")
       unreadable (fun _ _ _ => []) "config.py") = None ∧
  ours_commits
    (get_context (fun _ => Exited 128 "" "fatal: not a git repository")
       unreadable (fun _ _ _ => []) "config.py") = [] ∧
  theirs_commits
    (get_context (fun _ => Exited 128 "" "fatal: not a git repository")
       unreadable (fun _ _ _ => []) "config.py") = [].
Proof.
  apply (proj1 (context_without_merge_base
                  (fun _ => Exited 128 "" "fatal: not a git repository")
                  unreadable (fun _ _ _ => []) "config.py")).
  right. exists 128%Z, "", "fatal: not a git repository".
  split; [reflexivity | discriminate].
Defined.

(** ** The dependency scanner: what the limit keeps *)

Lemma fold_matches (f : string → list string) (patterns : list string) :
  ∀ acc,
  fold_left (fun imports pattern => imports ++ f pattern) patterns acc
  = acc ++ concat (f <$> patterns).
Proof.
  induction patterns as [|p patterns IH]; intros acc; simpl.
  - by rewrite app_nil_r.
  - by rewrite IH, <- app_assoc.
Qed.

(** X21. For a file that can be read, the imports are the first 20
    matches of the import patterns taken in pattern order (all matches of
    the first pattern, then of the second, then of the third), and the
    functions the first 20 matches of the function pattern.  Nothing is
    dropped when there are at most 20 matches, and when the first pattern
    alone has 20 matches or more, no match of the other patterns is
    reported. *)
Theorem imports_in_pattern_order (read_file : string → ReadResult)
    (re_findall : string → bool → string → list string)
    (filepath content : string) :
  read_file filepath = Content content →
  let deps := analyze_dependencies read_file re_findall filepath in
  let found :=
    concat ((fun pattern => re_findall pattern true content)
              <$> import_patterns) in
  imports deps = take 20 found ∧
  functions deps = take 20 (re_findall func_pattern false content) ∧
  (length found ≤ 20 → imports deps = found) ∧
  (∀ first others, import_patterns = first :: others →
     20 ≤ length (re_findall first true content) →
     imports deps = take 20 (re_findall first true content)).
Proof.
  intros Hread deps found.
  assert (Himports : imports deps = take 20 found).
  { unfold deps, analyze_dependencies. rewrite Hread. cbn [imports].
    by rewrite (fold_matches (fun pattern => re_findall pattern true content)). }
  split; [done|]. split; [|split].
  - unfold deps, analyze_dependencies. by rewrite Hread.
  - intros Hfew. rewrite Himports. by apply take_ge.
  - intros first others Hpatterns Hmany. rewrite Himports.
    unfold found. rewrite Hpatterns. simpl. by apply take_app_le.
Qed.

Lemma imports_in_pattern_order_witness :
  imports
    (analyze_dependencies (reads "import os")
       (fun pattern _ _ =>
          if String.prefix "^\s*import" pattern then ["import os"] else [])
       "a.py")
  = concat ((fun pattern =>
               (fun pattern (_ : bool) (_ : string) =>
                  if String.prefix "^\s*import" pattern
                  then ["import os"] else []) pattern true "import os")
              <$> import_patterns).
Proof.
  apply (proj1 (proj2 (proj2 (imports_in_pattern_order (reads "import os")
           (fun pattern _ _ =>
              if String.prefix "^\s*import" pattern then ["import os"]
              else [])
           "a.py" "import os" eq_refl)))).
  vm_compute. lia.
Defined.

(** X22. [create_backup] returns a name exactly when [git branch] exited
    with code 0, and the name is then the one asked for, or
    [backup-merge-] followed by the timestamp when none was given; every
    failure of the command is raised as a [RuntimeError], and no other
    name is tried. *)
Theorem create_backup_result (subprocess_run : list string → ProcessOutcome)
    (timestamp : string) (requested : option string) :
  let name := default ("backup-merge-" +:+ timestamp) requested in
  ((∃ out err, subprocess_run ["git"; "branch"; name] = Exited 0 out err) →
   create_backup subprocess_run timestamp requested = Returned name) ∧
  (∀ other, create_backup subprocess_run timestamp requested = Returned other →
     other = name ∧
     ∃ out err, subprocess_run ["git"; "branch"; name] = Exited 0 out err) ∧
  (∀ e, create_backup subprocess_run timestamp requested = Raised e →
     ∃ cause, e = RuntimeError cause).
Proof.
  intros name. unfold create_backup, run_git_command.
  assert (Hname : match requested with
                  | Some branch_name => branch_name
                  | None => "backup-merge-" +:+ timestamp
                  end = name) by (by destruct requested).
  rewrite Hname.
  destruct (subprocess_run ["git"; "branch"; name])
    as [code out err | message]; simpl.
  - destruct (Z.eqb_spec code 0) as [-> | Hcode]; simpl.
    + split; [done|]. split.
      * intros other [= <-]. split; [done|]. by exists out, err.
      * intros e He. discriminate He.
    + split; [|split].
      * intros (out' & err' & [= -> _ _]). done.
      * intros other Hother. discriminate Hother.
      * intros e [= <-]. by eexists.
  - split; [|split].
    + by intros (? & ? & ?).
    + intros other Hother. discriminate Hother.
    + intros e [= <-]. by eexists.
Qed.

Lemma create_backup_result_witness :
  create_backup (fun _ => Exited 0 "" "") "20240131-120000" None
  = Returned "backup-merge-20240131-120000".
Proof.
  apply (proj1 (create_backup_result (fun _ => Exited 0 "" "")
                  "20240131-120000" None)).
  by exists "", "".
Defined.
